(** * Quad Cortex device list: extractor and search view

    A shallow embedding of the two TypeScript programs of the repository:

    - the scraper ([scrapeDeviceList] and [main]), which reads category
      headings and device rows out of a rendered DOM and writes
      [lib/devices.json];
    - the Raycast command ([Command]), which filters the persisted records
      by a query, groups them by category and renders a list.

    JavaScript strings are modelled as [string]: a sequence of code units,
    each below 256 (the Latin-1 range).  On that range [trim],
    [toLowerCase], [includes] and the default [sort] order are written out
    below exactly as ECMAScript defines them. *)

From Stdlib Require Import Ascii String List Bool Arith Lia.
From Stdlib Require OrderedTypeEx.
From stdpp Require Import base option list gmap strings sorting.

Local Open Scope string_scope.
Local Open Scope list_scope.
Set Warnings "-register-all".

(** ** JavaScript string primitives *)

Module JS.

(** [WhiteSpace] and [LineTerminator] code points below 256:
    TAB, LF, VT, FF, CR, SPACE and NO-BREAK SPACE. *)
Definition isWhiteSpace (c : ascii) : bool :=
  let n := nat_of_ascii c in
  (Nat.leb 9 n && Nat.leb n 13) || Nat.eqb n 32 || Nat.eqb n 160.

Fixpoint trimStart (s : string) : string :=
  match s with
  | EmptyString => EmptyString
  | String c r => if isWhiteSpace c then trimStart r else s
  end.

Fixpoint trimEnd (s : string) : string :=
  match s with
  | EmptyString => EmptyString
  | String c r =>
      match trimEnd r with
      | EmptyString => if isWhiteSpace c then EmptyString else String c EmptyString
      | r' => String c r'
      end
  end.

(** [String.prototype.trim] *)
Definition trim (s : string) : string := trimEnd (trimStart s).

(** Lower-case mapping of one code unit: [A-Z] and the upper-case letters
    U+00C0..U+00DE (all but the multiplication sign U+00D7) move up by 32. *)
Definition lowerChar (c : ascii) : ascii :=
  let n := nat_of_ascii c in
  if (Nat.leb 65 n && Nat.leb n 90)
     || (Nat.leb 192 n && Nat.leb n 222 && negb (Nat.eqb n 215))
  then ascii_of_nat (n + 32) else c.

(** [String.prototype.toLowerCase] *)
Fixpoint toLowerCase (s : string) : string :=
  match s with
  | EmptyString => EmptyString
  | String c r => String (lowerChar c) (toLowerCase r)
  end.

(** [s.includes(sub)]: [sub] occurs in [s] at some position. *)
Fixpoint includes (s sub : string) : bool :=
  String.prefix sub s
  || match s with
     | EmptyString => false
     | String _ r => includes r sub
     end.

(** Truthiness of a string value: every string but the empty one. *)
Definition truthy (s : string) : bool :=
  match s with EmptyString => false | _ => true end.

(** [a || b] on strings. *)
Definition or_else (a b : string) : string := if truthy a then a else b.

End JS.

(** ** The rendered document *)

Module Dom.

(** A node is a text node or an element with its local name, its class
    list and its child nodes.  Comments and the like carry no text content
    and are no elements, so they are left out. *)
Inductive Node : Type :=
| Text (data : string)
| Element (tag : string) (classes : list string) (children : list Node).

Definition isElement (n : Node) : bool :=
  match n with Element _ _ _ => true | Text _ => false end.

(** [node.textContent]: the text of all text nodes below, in document order. *)
Fixpoint textContent (n : Node) : string :=
  match n with
  | Text d => d
  | Element _ _ ch =>
      (fix go (l : list Node) : string :=
         match l with
         | [] => EmptyString
         | c :: r => (textContent c ++ go r)%string
         end) ch
  end.

(** A compound selector [tag.class1.class2...]. *)
Record Selector : Type := { sel_tag : string; sel_classes : list string }.

Definition hasClass (cls : list string) (c : string) : bool :=
  existsb (String.eqb c) cls.

(** [element.matches(selector)] *)
Definition matches (sel : Selector) (n : Node) : bool :=
  match n with
  | Text _ => false
  | Element tag cls _ =>
      String.eqb tag (sel_tag sel) && forallb (hasClass cls) (sel_classes sel)
  end.

(** The elements of a forest that match, in document (pre-)order. *)
Fixpoint selectNode (sel : Selector) (n : Node) : list Node :=
  match n with
  | Text _ => []
  | Element _ _ ch =>
      (if matches sel n then [n] else [])
        ++ (fix go (l : list Node) : list Node :=
              match l with
              | [] => []
              | c :: r => selectNode sel c ++ go r
              end) ch
  end.

Definition selectForest (sel : Selector) (l : list Node) : list Node :=
  flat_map (selectNode sel) l.

Definition childNodes (n : Node) : list Node :=
  match n with Text _ => [] | Element _ _ ch => ch end.

(** [element.querySelectorAll(selector)]: the matching descendants of the
    element; the element itself is not among them. *)
Definition querySelectorAll (sel : Selector) (n : Node) : list Node :=
  selectForest sel (childNodes n).

(** An element met by [document.querySelectorAll], kept together with the
    child nodes of its parent that come after it: [nextElementSibling]
    walks through [after]. *)
Record Located : Type := { node : Node; after : list Node }.

Fixpoint locateNode (sel : Selector) (n : Node) (rest : list Node) : list Located :=
  match n with
  | Text _ => []
  | Element _ _ ch =>
      (if matches sel n then [{| node := n; after := rest |}] else [])
        ++ (fix go (l : list Node) : list Located :=
              match l with
              | [] => []
              | c :: r => locateNode sel c r ++ go r
              end) ch
  end.

Fixpoint locateForest (sel : Selector) (l : list Node) : list Located :=
  match l with
  | [] => []
  | c :: r => locateNode sel c r ++ locateForest sel r
  end.

(** The document: its child nodes. *)
Definition Document : Type := list Node.

End Dom.

(** ** The extractor: the callback of [page.evaluate] in [scrapeDeviceList] *)

Module Extractor.
Import Dom.

(** A device record as the scraper writes it. *)
Record Device : Type := { category : string; name : string; basedOn : string }.

Definition h2 : Selector := {| sel_tag := "h2"; sel_classes := [] |}.

(** [div.sc-97391185-0.vdqnr] *)
Definition rowSelector : Selector :=
  {| sel_tag := "div"; sel_classes := ["sc-97391185-0"; "vdqnr"] |}.

(** [div.sc-eb3d5477-0.ijbjQB] *)
Definition cellSelector : Selector :=
  {| sel_tag := "div"; sel_classes := ["sc-eb3d5477-0"; "ijbjQB"] |}.

(** The body of [dataRows.forEach]: [results] after the row was visited.
    The match is [cells.length >= 2] with [cells[0]] and [cells[1]]. *)
Definition pushRow (category : string) (results : list Device) (row : Node)
  : list Device :=
  match querySelectorAll cellSelector row with
  | cell0 :: cell1 :: _ =>
      let name := JS.or_else (JS.trim (textContent cell0)) "" in
      let basedOn := JS.or_else (JS.trim (textContent cell1)) "" in
      if JS.truthy name && Nat.ltb 0 (String.length name)
      then results ++ [{| category := category; name := name; basedOn := basedOn |}]
      else results
  | _ => results
  end.

(** The [while] loop over the siblings of a heading.  [siblings] are the
    child nodes of the parent after the current position; a text node is
    no element, so [nextElementSibling] passes over it. *)
Fixpoint walkSiblings (category : string) (results : list Device)
    (siblings : list Node) : list Device :=
  match siblings with
  | [] => results
  | Text _ :: rest => walkSiblings category results rest
  | current :: rest =>
      if matches h2 current then results
      else
        let dataRows := querySelectorAll rowSelector current in
        if Nat.ltb 0 (length dataRows)
        then fold_left (pushRow category) dataRows results
        else walkSiblings category results rest
  end.

(** The body of [headings.forEach]. *)
Definition visitHeading (results : list Device) (heading : Located) : list Device :=
  let category := JS.or_else (JS.trim (textContent (node heading))) "" in
  if negb (JS.truthy category) then results
  else walkSiblings category results (after heading).

(** The whole callback: the records read from the rendered document. *)
Definition extractDevices (document : Document) : list Device :=
  fold_left visitHeading (locateForest h2 document) [].

(** A row is well formed when it has two cells or more and the text of the
    first one is not empty once trimmed. *)
Definition wellFormedRow (row : Node) : bool :=
  match querySelectorAll cellSelector row with
  | cell0 :: _ :: _ => negb (String.eqb (JS.trim (textContent cell0)) "")
  | _ => false
  end.

Definition cellText (i : nat) (row : Node) : string :=
  match nth_error (querySelectorAll cellSelector row) i with
  | Some c => textContent c
  | None => ""
  end.

(** No matching row below the node, and the node is no heading: the loop
    moves on to the next sibling. *)
Definition passedOver (n : Node) : Prop :=
  matches h2 n = false /\ querySelectorAll rowSelector n = [].

(** Builders for the page's markup, used in the examples. *)
Definition heading (text : string) : Node := Element "h2" [] [Text text].
Definition cell (text : string) : Node :=
  Element "div" ["sc-eb3d5477-0"; "ijbjQB"] [Text text].
Definition row (cells : list Node) : Node :=
  Element "div" ["sc-97391185-0"; "vdqnr"] cells.
Definition container (rows : list Node) : Node :=
  Element "div" ["sc-aabe08f-0"; "flgqeV"]
    (Element "div" ["sc-edee8d04-0"; "cyEujK"] [Text "Name"; Text "Based on"] :: rows).

Definition guitarBox : Node :=
  container [ row [cell " Brit 800 "; cell "Marshall JCM800"; cell "1.0.0"];
              row [cell "Lonely"];
              row [cell "  "; cell "Nameless"];
              row [cell "Twin"; cell ""] ].

Definition bassBox : Node := container [ row [cell "Bass 400"; cell "Ampeg SVT"] ].

Definition bassIntro : Node := Element "p" [] [Text "intro"].

Definition pageTail : list Node :=
  [ container [ row [cell "Never"; cell "Reached"] ];
    heading "   ";
    container [ row [cell "Orphan"; cell "No category"] ] ].

Definition samplePage : Document :=
  [ Element "main" []
      ([ heading "Guitar amps"; Text " "; guitarBox;
         heading "Empty section";
         heading "Bass amps"; bassIntro; bassBox ] ++ pageTail) ].

(** The headings of [samplePage] as [document.querySelectorAll] meets them. *)
Definition guitarHeading : Located :=
  {| node := heading "Guitar amps";
     after := [ Text " "; guitarBox; heading "Empty section";
                heading "Bass amps"; bassIntro; bassBox ] ++ pageTail |}.

Definition emptyHeading : Located :=
  {| node := heading "Empty section";
     after := [ heading "Bass amps"; bassIntro; bassBox ] ++ pageTail |}.

Definition bassHeading : Located :=
  {| node := heading "Bass amps"; after := [ bassIntro; bassBox ] ++ pageTail |}.

Definition blankHeading : Located :=
  {| node := heading "   ";
     after := [ container [ row [cell "Orphan"; cell "No category"] ] ] |}.

(** A page whose heading text carries surrounding whitespace, and one whose
    heading text is nothing but whitespace. *)
Definition paddedPage : Document :=
  [ heading " Amps"; container [ row [cell "A"; cell "B"] ] ].

Definition blankPage : Document :=
  [ heading " "; container [ row [cell "A"; cell "B"] ] ].

(** A page whose rows follow the heading directly, with no container
    around them. *)
Definition bareRowsPage : Document :=
  [ heading "Amps"; row [cell "A"; cell "B"]; row [cell "C"; cell "D"] ].

Definition bareRowsHeading : Located :=
  {| node := heading "Amps";
     after := [ row [cell "A"; cell "B"]; row [cell "C"; cell "D"] ] |}.

End Extractor.

(** ** The search view: the [Command] component *)

Module SearchView.

(** [interface Device] of the view: [basedOn] is optional. *)
Record Device : Type :=
  { category : string; name : string; basedOn : option string }.

Definition announced : string :=
  "Announced devices that have not yet been released".

(** Code-unit order of strings, the order of the default [sort]. *)
Definition codeUnitLe (a b : string) : Prop := String.leb a b = true.

#[export] Instance codeUnitLe_dec (a b : string) : Decision (codeUnitLe a b) :=
  decide (String.leb a b = true).

(** Names that every object literal inherits from [Object.prototype]; all
    of them hold a function or an object, hence a truthy value without an
    array's [push]. *)
Definition objectPrototypeKeys : list string :=
  [ "constructor"; "hasOwnProperty"; "isPrototypeOf"; "propertyIsEnumerable";
    "toLocaleString"; "toString"; "valueOf"; "__proto__";
    "__defineGetter__"; "__defineSetter__"; "__lookupGetter__"; "__lookupSetter__" ].

Definition inherited (key : string) : bool :=
  existsb (String.eqb key) objectPrototypeKeys.

(** No own property of the object has an inherited name. *)
Definition noInheritedKey (acc : gmap string (list Device)) : Prop :=
  forall k, inherited k = true -> acc !! k = None.

(** [list.reduce(f, init)] for a callback that may throw ([None]). *)
Fixpoint reduce {A B : Type} (f : B -> A -> option B) (l : list A) (acc : B)
  : option B :=
  match l with
  | [] => Some acc
  | x :: r =>
      match f acc x with
      | Some acc' => reduce f r acc'
      | None => None
      end
  end.

(** What the view shows. React keys are left out: they are not displayed. *)
Inductive Action : Type :=
| CopyToClipboard (content title : string)
| OpenInBrowser (url title : string).

Record ListItem : Type :=
  { title : string; subtitle : string;
    accessories : list string; actions : list Action }.

Record ListSection : Type := { sectionTitle : string; items : list ListItem }.

(** [sub] occurs in [s]: some text before it and some text after it make up [s]. *)
Definition occursIn (sub s : string) : Prop :=
  exists before later : string, s = (before ++ sub ++ later)%string.

(** Substring test that ignores case: both sides are lower-cased first. *)
Definition occursInIgnoringCase (query field : string) : Prop :=
  occursIn (JS.toLowerCase query) (JS.toLowerCase field).

(** A string of white space only. *)
Fixpoint onlyWhiteSpace (s : string) : bool :=
  match s with
  | EmptyString => true
  | String c r => JS.isWhiteSpace c && onlyWhiteSpace r
  end.

(** The records of one category, in the order of the list. *)
Definition groupOf (key : string) (l : list Device) : list Device :=
  List.filter (fun device => String.eqb (category device) key) l.

(** Strict code-unit order. *)
Definition codeUnitLt (a b : string) : Prop := String.ltb a b = true.

(** A record whose missing [basedOn] is replaced by the empty string. *)
Definition withEmptyBasedOn (device : Device) : Device :=
  match basedOn device with
  | Some _ => device
  | None => {| category := category device; name := name device; basedOn := Some "" |}
  end.

Section Command.

(** [lib/devices.json] and [DEVICE_LIST_URL] of [lib/constants]. *)
Variable devices : list Device.
Variable DEVICE_LIST_URL : string.

Definition releasedDevices : list Device :=
  List.filter (fun device => negb (String.eqb (category device) announced)) devices.

(** A method call on a field that may be missing: on [undefined] it throws a
    [TypeError] ([None]). *)
Definition callMethod {A : Type} (field : option string) (method : string -> A)
  : option A :=
  match field with
  | Some s => Some (method s)
  | None => None
  end.

(** Truthiness of a field: [undefined] and the empty string are falsy. *)
Definition fieldTruthy (field : option string) : bool :=
  match field with
  | Some s => JS.truthy s
  | None => false
  end.

(** [device.basedOn && device.basedOn.trim() && device.basedOn.toLowerCase()
    .includes(searchLower)] operand by operand: [&&] evaluates its right
    operand only when the left one is truthy. *)
Definition basedOnIncludesSteps (searchLower : string) (device : Device)
  : option bool :=
  if fieldTruthy (basedOn device) then
    match callMethod (basedOn device) JS.trim with
    | Some trimmed =>
        if JS.truthy trimmed then
          match callMethod (basedOn device) JS.toLowerCase with
          | Some lower => Some (JS.includes lower searchLower)
          | None => None
          end
        else Some false
    | None => None
    end
  else Some false.

(** The same expression with the guard folded into the match on the field;
    [basedOnIncludesSteps] never throws and agrees with it. *)
Definition basedOnIncludes (searchLower : string) (device : Device) : bool :=
  match basedOn device with
  | None => false
  | Some b =>
      JS.truthy b && JS.truthy (JS.trim b)
      && JS.includes (JS.toLowerCase b) searchLower
  end.

(** The callback of the second [filter]. *)
Definition matchesSearch (searchText : string) (device : Device) : bool :=
  let searchLower := JS.toLowerCase searchText in
  if negb (JS.truthy searchText) then true
  else
    JS.includes (JS.toLowerCase (name device)) searchLower
    || JS.includes (JS.toLowerCase (category device)) searchLower
    || basedOnIncludes searchLower device.

Definition filtered (searchText : string) : list Device :=
  List.filter (matchesSearch searchText) releasedDevices.

(** The callback of [reduce]. [acc] holds the own properties of the object
    literal. Reading [acc[key]] finds the own property if there is one (an
    array, truthy: the record is pushed); otherwise it falls back to
    [Object.prototype]: for a name found there the value is truthy, so no
    array is stored, and [acc[key].push] is no function (a [TypeError],
    [None]); for any other name the value is [undefined], an empty array is
    stored and the record is pushed. *)
Definition groupStep (acc : gmap string (list Device)) (device : Device)
  : option (gmap string (list Device)) :=
  match acc !! category device with
  | Some group => Some (<[category device := group ++ [device]]> acc)
  | None =>
      if inherited (category device) then None
      else Some (<[category device := [device]]> acc)
  end.

Definition groupedDevices (searchText : string)
  : option (gmap string (list Device)) :=
  reduce groupStep (filtered searchText) ∅.

(** [Object.keys(groupedDevices).sort()]. The keys are distinct, so
    every sorting algorithm returns the same list. *)
Definition sortedCategories (grouped : gmap string (list Device)) : list string :=
  merge_sort codeUnitLe (fst <$> map_to_list grouped).

Definition subtitleOf (device : Device) : string :=
  match basedOn device with
  | None => ""
  | Some b => JS.or_else b ""
  end.

(** [device.basedOn && device.basedOn.trim() && <Action.CopyToClipboard .../>]
    operand by operand. *)
Definition copyActionSteps (device : Device) : option (list Action) :=
  if fieldTruthy (basedOn device) then
    match callMethod (basedOn device) JS.trim with
    | Some trimmed =>
        if JS.truthy trimmed
        then Some [CopyToClipboard (default "" (basedOn device))
                     "Copy 'Based On' to Clipboard"]
        else Some []
    | None => None
    end
  else Some [].

Definition copyAction (device : Device) : list Action :=
  match basedOn device with
  | None => []
  | Some b =>
      if JS.truthy b && JS.truthy (JS.trim b)
      then [CopyToClipboard b "Copy 'Based On' to Clipboard"]
      else []
  end.

Definition actionPanel (device : Device) : list Action :=
  copyAction device
    ++ [OpenInBrowser DEVICE_LIST_URL "Open Quad Cortex device list in browser"].

Definition renderItem (category : string) (device : Device) : ListItem :=
  {| title := name device;
     subtitle := subtitleOf device;
     accessories := [category];
     actions := actionPanel device |}.

(** [<List.Section>] for one category; [groupedDevices[category]] of a
    missing key would be [undefined]. *)
Definition renderSection (grouped : gmap string (list Device)) (category : string)
  : option ListSection :=
  match grouped !! category with
  | Some group =>
      Some {| sectionTitle := category; items := map (renderItem category) group |}
  | None => None
  end.

(** The rendered list for the current [searchText]; [None] is a thrown
    [TypeError]. *)
Definition Command (searchText : string) : option (list ListSection) :=
  match groupedDevices searchText with
  | Some grouped => mapM (renderSection grouped) (sortedCategories grouped)
  | None => None
  end.

End Command.

(** The dataset of the specification's example. *)
Definition brit800 : Device :=
  {| category := "Amps"; name := "Brit 800"; basedOn := Some "Marshall JCM800" |}.

Definition twin : Device :=
  {| category := "Amps"; name := "Twin"; basedOn := Some "" |}.

Definition secret : Device :=
  {| category := announced; name := "Secret"; basedOn := Some "X" |}.

Definition exampleDevices : list Device := [brit800; twin; secret].

Definition mixedDevices : list Device :=
  [ {| category := "Z-cat"; name := "z1"; basedOn := Some "one" |};
    {| category := "A-cat"; name := "a1"; basedOn := None |};
    {| category := "Z-cat"; name := "z2"; basedOn := Some "  " |};
    {| category := "A-cat"; name := "a2"; basedOn := Some "two" |} ].

(** A dataset with a category that is a name of [Object.prototype]. *)
Definition clashingDevices : list Device :=
  [ {| category := "Amps"; name := "Twin"; basedOn := Some "" |};
    {| category := "constructor"; name := "Clash"; basedOn := Some "" |} ].

(** A record of the scraper as the view reads it back from
    [lib/devices.json]: the three fields are written and read as strings. *)
Definition ofExtracted (d : Extractor.Device) : Device :=
  {| category := Extractor.category d;
     name := Extractor.name d;
     basedOn := Some (Extractor.basedOn d) |}.

End SearchView.

(** ** The scraper run: [scrapeDeviceList] around the callback, and [main] *)

Module Scraper.
Import Dom Extractor.

(** The outcome of an awaited call: a value, or a thrown error. *)
Inductive result (A : Type) : Type :=
| Ok (value : A)
| Throw (error : string).
Arguments Ok {A} value.
Arguments Throw {A} error.

(** What the run meets outside the program: the outcome of each call to
    the browser and to the file system. [evaluate] holds the rendered
    document the callback runs on. [existsSync] never throws. *)
Record World : Type :=
  { launch : result unit;
    newPage : result unit;
    goto : result unit;
    waitForSelector : result unit;
    evaluate : result Document;
    close : result unit;
    cwd : string;
    existsSync : bool;
    mkdirSync : result unit;
    writeFileSync : result unit }.

Inductive LogMessage : Type :=
| LaunchingBrowser
| FetchingPage
| Scraped (count : nat)
| Wrote (count : nat) (path : string)
| Summary (devices : list Device).

(** The observable effects, in the order they are issued. *)
Inductive Event : Type :=
| ConsoleLog (message : LogMessage)
| ConsoleWarn (message : string)
| ConsoleError (message error : string)
| BrowserClose
| MkdirSync (path : string)
| WriteFileSync (path : string) (data : list Device)
| ProcessExit (code : nat).

(** Computations that append to the trace and may throw. *)
Definition M (A : Type) : Type := list Event -> result A * list Event.

#[export] Instance M_ret : MRet M := fun A a trace => (Ok a, trace).

#[export] Instance M_bind : MBind M := fun A B k m trace =>
  match m trace with
  | (Ok a, trace') => k a trace'
  | (Throw e, trace') => (Throw e, trace')
  end.

Definition emit (e : Event) : M unit := fun trace => (Ok tt, trace ++ [e]).

Definition await {A : Type} (r : result A) : M A := fun trace => (r, trace).

(** [try m catch (e) handler] and [promise.catch(handler)] *)
Definition catch {A : Type} (m : M A) (handler : string -> M A) : M A :=
  fun trace =>
    match m trace with
    | (Ok a, trace') => (Ok a, trace')
    | (Throw e, trace') => handler e trace'
    end.

(** [try m finally cleanup]: an error of the cleanup replaces the outcome. *)
Definition finally {A : Type} (m : M A) (cleanup : M unit) : M A :=
  fun trace =>
    match m trace with
    | (r, trace') =>
        match cleanup trace' with
        | (Ok _, trace'') => (r, trace'')
        | (Throw e, trace'') => (Throw e, trace'')
        end
    end.

(** [path.join] of a directory and a name. *)
Definition pathJoin (dir name : string) : string := (dir ++ "/" ++ name)%string.

Section Run.
Variable w : World.

Definition scrapeDeviceList : M (list Device) :=
  emit (ConsoleLog LaunchingBrowser);;
  await (launch w);;
  finally
    (await (newPage w);;
     emit (ConsoleLog FetchingPage);;
     await (goto w);;
     catch (await (waitForSelector w))
           (fun _ => emit (ConsoleWarn "No h2 headings found"));;
     document ← await (evaluate w);
     mret (extractDevices document))
    (emit BrowserClose;; await (close w)).

Definition libDir : string := pathJoin (cwd w) "lib".
Definition outputPath : string := pathJoin libDir "devices.json".

Definition main : M unit :=
  catch
    (devices ← scrapeDeviceList;
     emit (ConsoleLog (Scraped (length devices)));;
     (if negb (existsSync w)
      then emit (MkdirSync libDir);; await (mkdirSync w)
      else mret tt);;
     emit (WriteFileSync outputPath devices);;
     await (writeFileSync w);;
     emit (ConsoleLog (Wrote (length devices) outputPath));;
     emit (ConsoleLog (Summary devices)))
    (fun error =>
       emit (ConsoleError "Error scraping device list:" error);;
       emit (ProcessExit 1)).

(** The effects of one run of the program. *)
Definition trace : list Event := snd (main []).

End Run.

Definition isWrite (e : Event) : bool :=
  match e with WriteFileSync _ _ => true | _ => false end.

(** The exit status: that of the first [process.exit], else 0. *)
Fixpoint exitStatus (t : list Event) : nat :=
  match t with
  | [] => 0
  | ProcessExit code :: _ => code
  | _ :: r => exitStatus r
  end.

Definition isOk {A : Type} (r : result A) : bool :=
  match r with Ok _ => true | Throw _ => false end.

(** An error leaves [scrapeDeviceList]: one of the calls that are not
    guarded throws. *)
Definition extractionThrows (w : World) : bool :=
  negb (isOk (launch w) && isOk (newPage w) && isOk (goto w)
        && isOk (evaluate w) && isOk (close w)).

Definition calmWorld (document : Document) : World :=
  {| launch := Ok tt; newPage := Ok tt; goto := Ok tt;
     waitForSelector := Ok tt; evaluate := Ok document; close := Ok tt;
     cwd := "/repo"; existsSync := true;
     mkdirSync := Ok tt; writeFileSync := Ok tt |}.

(** A run whose wait for the first heading times out, all else going well. *)
Definition slowWorld : World :=
  {| launch := Ok tt; newPage := Ok tt; goto := Ok tt;
     waitForSelector := Throw "TimeoutError: waiting for selector h2 failed";
     evaluate := Ok samplePage; close := Ok tt;
     cwd := "/repo"; existsSync := false;
     mkdirSync := Ok tt; writeFileSync := Ok tt |}.

(** A run whose navigation fails. *)
Definition offlineWorld : World :=
  {| launch := Ok tt; newPage := Ok tt;
     goto := Throw "net::ERR_NAME_NOT_RESOLVED";
     waitForSelector := Ok tt; evaluate := Ok samplePage; close := Ok tt;
     cwd := "/repo"; existsSync := true;
     mkdirSync := Ok tt; writeFileSync := Ok tt |}.

Definition isClose (e : Event) : bool :=
  match e with BrowserClose => true | _ => false end.

Definition isMkdir (e : Event) : bool :=
  match e with MkdirSync _ => true | _ => false end.

Definition isExit (e : Event) : bool :=
  match e with ProcessExit _ => true | _ => false end.

Definition isErrorLog (e : Event) : bool :=
  match e with ConsoleError _ _ => true | _ => false end.

(** The events issued before the browser is closed (all of them when it
    never is). *)
Fixpoint beforeClose (t : list Event) : list Event :=
  match t with
  | [] => []
  | BrowserClose :: _ => []
  | e :: r => e :: beforeClose r
  end.

(** Nothing throws on the way to the end of [main]: the extraction returns,
    the directory is there or can be made, and the file can be written. *)
Definition runSucceeds (w : World) : bool :=
  negb (extractionThrows w)
  && (existsSync w || isOk (mkdirSync w))
  && isOk (writeFileSync w).

(** ** The summary by category at the end of [main] *)

Definition isDigit (c : ascii) : bool :=
  let n := nat_of_ascii c in
  Nat.leb 48 n && Nat.leb n 57.

(** The number a string of decimal digits stands for. *)
Fixpoint decimalValue (acc : N) (s : string) : option N :=
  match s with
  | EmptyString => Some acc
  | String c r =>
      if isDigit c
      then decimalValue (10 * acc + N.of_nat (nat_of_ascii c - 48)) r
      else None
  end.

(** A property key that is an array index: the decimal form, without
    leading zero, of an integer below 2^32 - 1. An object lists such keys
    first, in ascending numeric order. *)
Definition arrayIndex (key : string) : option N :=
  match key with
  | EmptyString => None
  | String c r =>
      if Ascii.eqb c "0" && negb (String.eqb r "") then None
      else
        match decimalValue 0 key with
        | Some n => if N.leb n 4294967294 then Some n else None
        | None => None
        end
  end.

(** The own properties of [categoryCounts], in the order they were created. *)
Definition Counts : Type := list (string * nat).

(** [acc[key] = (acc[key] || 0) + 1] for a key that holds a number or no
    value: a present count is truthy. *)
Fixpoint bump (key : string) (acc : Counts) : Counts :=
  match acc with
  | [] => [(key, 1)]
  | (k, n) :: r =>
      if String.eqb k key then (k, n + 1) :: r else (k, n) :: bump key r
  end.

(** The callback of the second [reduce]. For the key [__proto__] the read
    finds [Object.prototype] and the assignment is the inherited setter,
    which ignores a value that is no object: no property is created. For any
    other name inherited from [Object.prototype] the read finds a function,
    and the sum is a string: the count is no number any more ([None]). *)
Definition countStep (acc : Counts) (device : Device) : option Counts :=
  if String.eqb (category device) "__proto__" then Some acc
  else if SearchView.inherited (category device) then None
  else Some (bump (category device) acc).

Definition categoryCounts (devices : list Device) : option Counts :=
  SearchView.reduce countStep devices [].

Definition hasIndex (entry : string * nat) : bool :=
  match arrayIndex (fst entry) with Some _ => true | None => false end.

Definition withIndex (entry : string * nat) : option (N * (string * nat)) :=
  match arrayIndex (fst entry) with
  | Some i => Some (i, entry)
  | None => None
  end.

Definition indexLe (a b : N * (string * nat)) : Prop := (fst a <= fst b)%N.

#[export] Instance indexLe_dec (a b : N * (string * nat)) : Decision (indexLe a b) :=
  decide (fst a <= fst b)%N.

(** [Object.entries]: the array-index keys in ascending numeric order (the
    keys are distinct, so is their order), then the other keys in the order
    they were created. *)
Definition entries (counts : Counts) : list (string * nat) :=
  map snd (merge_sort indexLe (omap withIndex counts))
    ++ List.filter (fun entry => negb (hasIndex entry)) counts.

(** [sort(([, a], [, b]) => b - a)] on numbers: the sort is stable, so an
    entry goes in front of the first entry whose count is not greater. *)
Fixpoint insertByCount (entry : string * nat) (sorted : list (string * nat))
  : list (string * nat) :=
  match sorted with
  | [] => [entry]
  | x :: r =>
      if Nat.ltb (snd entry) (snd x) then x :: insertByCount entry r
      else entry :: x :: r
  end.

Definition sortByCount (l : list (string * nat)) : list (string * nat) :=
  fold_right insertByCount [] l.

(** The lines printed under "Summary by category:", each a category and its
    count. [None]: a count is no number, the comparator yields [NaN], and
    the order of the lines is left to the engine. *)
Definition summaryLines (devices : list Device) : option (list (string * nat)) :=
  match categoryCounts devices with
  | Some counts => Some (sortByCount (entries counts))
  | None => None
  end.

(** Two keys that are array indices, the first one not above the second. *)
Definition indexBefore (a b : string * nat) : Prop :=
  match arrayIndex (fst a), arrayIndex (fst b) with
  | Some i, Some j => (i <= j)%N
  | _, _ => False
  end.

(** The count stored under a key, 0 when there is none. *)
Fixpoint countIn (key : string) (acc : Counts) : nat :=
  match acc with
  | [] => 0
  | (k, n) :: r => if String.eqb k key then n else countIn key r
  end.

(** The number of records of a category. *)
Definition recordsOf (key : string) (devices : list Device) : nat :=
  length (List.filter (fun device => String.eqb (category device) key) devices).

Definition countedDevices (devices : list Device) : list Device :=
  List.filter (fun device => negb (String.eqb (category device) "__proto__")) devices.

Definition totalCount (l : list (string * nat)) : nat :=
  fold_right (fun entry total => snd entry + total) 0 l.

Definition countGe (a b : string * nat) : Prop := snd b <= snd a.

Definition sameCount (n : nat) (entry : string * nat) : bool := Nat.eqb (snd entry) n.

(** Records of four categories, one of them a year. *)
Definition yearlyDevices : list Device :=
  [ {| category := "Amps"; name := "a"; basedOn := "" |};
    {| category := "Cabs"; name := "b"; basedOn := "" |};
    {| category := "2024"; name := "c"; basedOn := "" |};
    {| category := "Cabs"; name := "d"; basedOn := "" |};
    {| category := "__proto__"; name := "e"; basedOn := "" |} ].

End Scraper.

(** * Properties of the extractor *)

Section ExtractorFacts.
Import Dom Extractor.

(** Induction over a node and, below an element, over all its children. *)
Lemma Node_forest_ind (P : Node -> Prop) :
  (forall data, P (Text data)) ->
  (forall tag classes children, Forall P children -> P (Element tag classes children)) ->
  forall n, P n.
Proof.
  intros HText HElement.
  fix IH 1.
  intros [data | tag classes children].
  - apply HText.
  - apply HElement.
    induction children as [| c r IHr]; constructor.
    + apply IH.
    + exact IHr.
Qed.

(** The elements that [locateForest] meets are those of [querySelectorAll],
    in the same order. *)
Lemma locateNode_nodes (sel : Selector) (n : Node) :
  forall rest, map node (locateNode sel n rest) = selectNode sel n.
Proof.
  induction n as [data | tag classes children IH] using Node_forest_ind; intros rest.
  - reflexivity.
  - cbn [locateNode selectNode].
    rewrite map_app. f_equal.
    + destruct (matches sel (Element tag classes children)); reflexivity.
    + induction IH as [| c r Hc _ IHr]; [reflexivity |].
      rewrite map_app, Hc. f_equal. exact IHr.
Qed.

Lemma locateForest_nodes (sel : Selector) (document : Document) :
  map node (locateForest sel document) = selectForest sel document.
Proof.
  unfold selectForest.
  induction document as [| c r IH]; [reflexivity |].
  cbn [locateForest flat_map].
  rewrite map_app, locateNode_nodes, IH. reflexivity.
Qed.

(** Visiting a row only appends to the results. *)
Lemma pushRow_appends (category : string) (results : list Device) (r : Node) :
  pushRow category results r = results ++ pushRow category [] r.
Proof.
  unfold pushRow.
  destruct (querySelectorAll cellSelector r) as [| c0 [| c1 cells]];
    rewrite ?app_nil_r; try reflexivity.
  cbn zeta.
  destruct (JS.truthy _ && _); [reflexivity | now rewrite app_nil_r].
Qed.

Lemma fold_pushRow (category : string) (rows : list Node) :
  forall results,
    fold_left (pushRow category) rows results
    = results ++ flat_map (pushRow category []) rows.
Proof.
  induction rows as [| r rows IH]; intros results; cbn [fold_left flat_map].
  - now rewrite app_nil_r.
  - rewrite IH, (pushRow_appends category results r), <- app_assoc. reflexivity.
Qed.

(** Siblings without rows that are no headings are passed over. *)
Lemma walkSiblings_passedOver (category : string) (results : list Device)
    (pre rest : list Node) :
  Forall passedOver pre ->
  walkSiblings category results (pre ++ rest) = walkSiblings category results rest.
Proof.
  induction 1 as [| n pre [Hh2 Hrows] _ IH]; [reflexivity |].
  cbn [app walkSiblings].
  destruct n as [data | tag classes children]; [exact IH |].
  rewrite Hh2, Hrows. exact IH.
Qed.

(** The first sibling that is a heading or holds rows decides the outcome. *)
Lemma walkSiblings_stop (category : string) (results : list Device)
    (stop : Node) (post : list Node) :
  matches h2 stop = true \/ querySelectorAll rowSelector stop <> [] ->
  walkSiblings category results (stop :: post)
  = results ++ (if matches h2 stop then []
                else flat_map (pushRow category []) (querySelectorAll rowSelector stop)).
Proof.
  intros Hstop.
  destruct stop as [data | tag classes children].
  - destruct Hstop as [H | H]; [discriminate H | now elim H].
  - cbn [walkSiblings].
    destruct (matches h2 (Element tag classes children)); [now rewrite app_nil_r |].
    destruct Hstop as [H | H]; [discriminate H |].
    destruct (querySelectorAll rowSelector (Element tag classes children)) as [| r rows] eqn:E;
      [now elim H |].
    change (Nat.ltb 0 (length (r :: rows))) with true. cbv iota.
    apply fold_pushRow.
Qed.

Lemma truthy_or_else_empty (s : string) : JS.or_else s "" = s.
Proof. destruct s; reflexivity. Qed.

Lemma truthy_nonempty (s : string) : JS.truthy s = true <-> s <> "".
Proof. destruct s; cbn; split; congruence. Qed.

Lemma visitHeading_unfold (results : list Device) (h : Located) :
  visitHeading results h
  = if JS.truthy (JS.trim (textContent (node h)))
    then walkSiblings (JS.trim (textContent (node h))) results (after h)
    else results.
Proof.
  unfold visitHeading. rewrite truthy_or_else_empty.
  destruct (JS.truthy _); reflexivity.
Qed.

Lemma walkSiblings_appends (category : string) (siblings : list Node) :
  forall results,
    walkSiblings category results siblings
    = results ++ walkSiblings category [] siblings.
Proof.
  induction siblings as [| n rest IH]; intros results; cbn [walkSiblings].
  - now rewrite app_nil_r.
  - destruct n as [data | tag classes children]; [apply IH |].
    destruct (matches h2 _); [now rewrite app_nil_r |].
    destruct (Nat.ltb 0 _); [| apply IH].
    rewrite fold_pushRow, (fold_pushRow category _ []). reflexivity.
Qed.

Lemma visitHeading_appends (results : list Device) (h : Located) :
  visitHeading results h = results ++ visitHeading [] h.
Proof.
  rewrite !visitHeading_unfold.
  destruct (JS.truthy _); [apply walkSiblings_appends | now rewrite app_nil_r].
Qed.

(** The output is the concatenation, in heading order, of what each heading
    contributes. *)
Lemma fold_visitHeading (headings : list Located) :
  forall results,
    fold_left visitHeading headings results
    = results ++ flat_map (visitHeading []) headings.
Proof.
  induction headings as [| h hs IH]; intros results; cbn [fold_left flat_map].
  - now rewrite app_nil_r.
  - rewrite IH, (visitHeading_appends results h), <- app_assoc. reflexivity.
Qed.

Lemma extractDevices_concat (document : Document) :
  extractDevices document = flat_map (visitHeading []) (locateForest h2 document).
Proof. unfold extractDevices. now rewrite fold_visitHeading. Qed.

End ExtractorFacts.

Section ExtractorClaims.
Import Dom Extractor.

(** C1 (as amended). Take a heading whose text is not empty once trimmed,
    and let the first sibling after it that is a heading or holds rows be a
    container of rows. Then the heading contributes, at its place in the
    output, the records of the container's rows in row order: a row with two
    cells or more and a first cell that is not empty once trimmed yields
    exactly one record, with the trimmed heading text as category, the
    trimmed text of the first cell as name and the trimmed text of the second
    cell as basedOn; every other row yields no record. *)
Theorem C1_rows_of_container_yield_records
    (document : Document) (before later : list Located) (h : Located)
    (pre post : list Node) (box : Node) :
  locateForest h2 document = before ++ h :: later ->
  JS.trim (textContent (node h)) <> "" ->
  after h = pre ++ box :: post ->
  Forall passedOver pre ->
  matches h2 box = false ->
  querySelectorAll rowSelector box <> [] ->
  let category := JS.trim (textContent (node h)) in
  let rows := querySelectorAll rowSelector box in
  extractDevices document
  = flat_map (visitHeading []) before
      ++ flat_map (pushRow category []) rows
      ++ flat_map (visitHeading []) later
  /\ (forall r, wellFormedRow r = true ->
        pushRow category [] r
        = [{| category := category;
              name := JS.trim (cellText 0 r);
              basedOn := JS.trim (cellText 1 r) |}])
  /\ (forall r, wellFormedRow r = false -> pushRow category [] r = []).
Proof.
  intros Hdoc Htext Hafter Hpre Hbox Hrows category rows.
  split; [| split].
  - rewrite extractDevices_concat, Hdoc, flat_map_app. cbn [flat_map].
    do 2 f_equal.
    rewrite visitHeading_unfold.
    apply truthy_nonempty in Htext. rewrite Htext, Hafter.
    rewrite walkSiblings_passedOver by exact Hpre.
    rewrite walkSiblings_stop by (right; exact Hrows).
    rewrite Hbox. reflexivity.
  - intros r. unfold wellFormedRow, pushRow, cellText.
    destruct (querySelectorAll cellSelector r) as [| c0 [| c1 cells]]; try discriminate.
    cbn [nth_error]. rewrite !truthy_or_else_empty.
    destruct (JS.trim (textContent c0)) as [| a s]; [discriminate |].
    reflexivity.
  - intros r. unfold wellFormedRow, pushRow.
    destruct (querySelectorAll cellSelector r) as [| c0 [| c1 cells]]; try reflexivity.
    rewrite !truthy_or_else_empty.
    destruct (JS.trim (textContent c0)) as [| a s]; [reflexivity | discriminate].
Qed.

(** The theorem of C1 at the "Bass amps" heading of [samplePage]. *)
Lemma C1_rows_of_container_yield_records_witness :
  locateForest h2 samplePage
  = [guitarHeading; emptyHeading] ++ bassHeading :: [blankHeading]
  /\ Forall passedOver [bassIntro]
  /\ extractDevices samplePage
     = [ {| category := "Guitar amps"; name := "Brit 800"; basedOn := "Marshall JCM800" |};
         {| category := "Guitar amps"; name := "Twin"; basedOn := "" |};
         {| category := "Bass amps"; name := "Bass 400"; basedOn := "Ampeg SVT" |} ].
Proof.
  assert (Hpre : Forall passedOver [bassIntro])
    by (repeat constructor).
  split; [reflexivity | split; [exact Hpre |]].
  refine (proj1 (C1_rows_of_container_yield_records samplePage
                   [guitarHeading; emptyHeading] [blankHeading] bassHeading
                   [bassIntro] pageTail bassBox _ _ _ Hpre _ _)).
  - reflexivity.
  - vm_compute. discriminate.
  - reflexivity.
  - reflexivity.
  - vm_compute. discriminate.
Defined.

(** C1 as it is worded fails: the category is the trimmed heading text, not
    the heading text, and a heading of whitespace only has non-empty text but
    contributes nothing. *)
Lemma C1_heading_text_is_trimmed :
  textContent (heading " Amps") = " Amps"
  /\ wellFormedRow (row [cell "A"; cell "B"]) = true
  /\ extractDevices paddedPage = [{| category := "Amps"; name := "A"; basedOn := "B" |}]
  /\ ~ In {| category := textContent (heading " Amps"); name := "A"; basedOn := "B" |}
          (extractDevices paddedPage)
  /\ textContent (heading " ") <> ""
  /\ extractDevices blankPage = [].
Proof.
  repeat split; try reflexivity.
  - vm_compute. intros [H | []]. discriminate H.
  - vm_compute. discriminate.
Qed.

(** C2. From the heading's next sibling on, siblings that are no headings and
    hold no rows are passed over; the first sibling [stop] that is a heading
    or holds rows ends the walk. What the heading contributes is read from
    [stop] alone, whatever comes after it: nothing when [stop] is a heading
    or when the siblings run out, all rows of [stop] otherwise. *)
Theorem C2_walk_ends_at_first_container_or_heading
    (h : Located) (pre rest : list Node) (results : list Device) :
  after h = pre ++ rest ->
  Forall passedOver pre ->
  match rest with
  | [] => True
  | stop :: _ => matches h2 stop = true \/ querySelectorAll rowSelector stop <> []
  end ->
  visitHeading results h
  = results
      ++ match rest with
         | [] => []
         | stop :: _ =>
             if matches h2 stop then []
             else if JS.truthy (JS.trim (textContent (node h)))
                  then flat_map (pushRow (JS.trim (textContent (node h))) [])
                         (querySelectorAll rowSelector stop)
                  else []
         end.
Proof.
  intros Hafter Hpre Hstop.
  rewrite visitHeading_unfold, Hafter.
  destruct (JS.truthy (JS.trim (textContent (node h)))).
  - rewrite walkSiblings_passedOver by exact Hpre.
    destruct rest as [| stop post]; [cbn; now rewrite app_nil_r |].
    apply walkSiblings_stop, Hstop.
  - destruct rest as [| stop post]; [now rewrite app_nil_r |].
    destruct (matches h2 stop); now rewrite app_nil_r.
Qed.

(** The theorem of C2 at two headings of [samplePage]: "Bass amps" reads its
    rows from the first container only, "Empty section" meets the next
    heading first. *)
Lemma C2_walk_ends_at_first_container_or_heading_witness :
  Forall passedOver [bassIntro]
  /\ visitHeading [] bassHeading
     = [{| category := "Bass amps"; name := "Bass 400"; basedOn := "Ampeg SVT" |}]
  /\ visitHeading [] emptyHeading = [].
Proof.
  assert (Hpre : Forall passedOver [bassIntro]) by (repeat constructor).
  split; [exact Hpre | split].
  - refine (C2_walk_ends_at_first_container_or_heading bassHeading
              [bassIntro] (bassBox :: pageTail) [] _ Hpre _).
    + reflexivity.
    + right. vm_compute. discriminate.
  - refine (C2_walk_ends_at_first_container_or_heading emptyHeading
              [] (after emptyHeading) [] _ _ _).
    + reflexivity.
    + constructor.
    + left. reflexivity.
Defined.

End ExtractorClaims.

(** * Properties of the search view *)

Section StringFacts.

Lemma prefix_occurs (p s : string) :
  String.prefix p s = true <-> exists later, s = (p ++ later)%string.
Proof.
  revert s. induction p as [| a p IH]; intros s.
  - split; [intros _; now exists s | intros _; now destruct s].
  - destruct s as [| b s]; cbn.
    + split; [discriminate | intros [later H]; discriminate H].
    + destruct (ascii_dec a b) as [-> | Hab].
      * rewrite IH. split; intros [later H]; exists later.
        -- now rewrite H.
        -- now injection H.
      * split; [discriminate | intros [later H]; injection H as H1 _; congruence].
Qed.

Lemma includes_unfold (s sub : string) :
  JS.includes s sub
  = String.prefix sub s
    || match s with EmptyString => false | String _ r => JS.includes r sub end.
Proof. destruct s; reflexivity. Qed.

(** [includes] decides occurrence. *)
Lemma includes_occurs (s sub : string) :
  JS.includes s sub = true <-> SearchView.occursIn sub s.
Proof.
  unfold SearchView.occursIn.
  induction s as [| c r IH]; rewrite includes_unfold, orb_true_iff, prefix_occurs.
  - split.
    + intros [[later H] | H]; [| discriminate H]. now exists EmptyString, later.
    + intros [[| b before] [later H]]; [left; now exists later | discriminate H].
  - rewrite IH. split.
    + intros [[later H] | [before [later H]]].
      * now exists EmptyString, later.
      * exists (String c before), later. now rewrite H.
    + intros [[| b before] [later H]].
      * left. now exists later.
      * right. exists before, later. now injection H.
Qed.

Lemma includes_empty (s : string) : JS.includes s "" = true.
Proof. apply includes_occurs. now exists EmptyString, s. Qed.

(** White space has no upper-case form. *)
Lemma lowerChar_whiteSpace (c : ascii) : JS.isWhiteSpace c = true -> JS.lowerChar c = c.
Proof.
  destruct c as [[] [] [] [] [] [] [] []]; vm_compute; congruence.
Qed.

Lemma toLowerCase_onlyWhiteSpace (s : string) :
  SearchView.onlyWhiteSpace s = true -> JS.toLowerCase s = s.
Proof.
  induction s as [| c r IH]; cbn; [reflexivity |].
  intros [Hc Hr]%andb_true_iff.
  now rewrite lowerChar_whiteSpace, IH.
Qed.

(** Trimming the empty string, and what is left of a non-blank string. *)
Lemma trim_nonempty_source (s : string) : JS.trim s <> "" -> s <> "".
Proof. intros H ->. now apply H. Qed.

End StringFacts.

Section MatchingFacts.
Import SearchView.

Lemma toLowerCase_app (a b : string) :
  JS.toLowerCase (a ++ b)%string = (JS.toLowerCase a ++ JS.toLowerCase b)%string.
Proof.
  induction a as [| c a IH]; [reflexivity |].
  change (String (JS.lowerChar c) (JS.toLowerCase (a ++ b)%string)
          = String (JS.lowerChar c) (JS.toLowerCase a ++ JS.toLowerCase b)%string).
  now rewrite IH.
Qed.

(** A lower-cased text splits where its source splits. *)
Lemma toLowerCase_split (s a b : string) :
  JS.toLowerCase s = (a ++ b)%string ->
  exists a' b', s = (a' ++ b')%string /\ JS.toLowerCase a' = a /\ JS.toLowerCase b' = b.
Proof.
  revert s. induction a as [| c a IH]; intros s H.
  - now exists EmptyString, s.
  - destruct s as [| c' s]; [discriminate H |].
    injection H as Hc Hs.
    destruct (IH s Hs) as (a' & b' & -> & Ha & Hb).
    exists (String c' a'), b'. cbn. now rewrite Hc, Ha.
Qed.

(** Only white space lower-cases to white space. *)
Lemma lowerChar_whiteSpace_source (c : ascii) :
  JS.isWhiteSpace (JS.lowerChar c) = true -> JS.lowerChar c = c.
Proof.
  destruct c as [[] [] [] [] [] [] [] []]; vm_compute; congruence.
Qed.

Lemma toLowerCase_whiteSpace_source (s q : string) :
  onlyWhiteSpace q = true -> JS.toLowerCase s = q -> s = q.
Proof.
  revert q. induction s as [| c s IH]; intros q Hq H; cbn in H; subst q; [reflexivity |].
  cbn in Hq. apply andb_true_iff in Hq as [Hc Hs].
  rewrite (lowerChar_whiteSpace_source c Hc). f_equal. exact (IH _ Hs eq_refl).
Qed.

(** For a query of white space only, the case of the field plays no part. *)
Lemma occursIn_whiteSpace (q s : string) :
  onlyWhiteSpace q = true ->
  occursIn q (JS.toLowerCase s) <-> occursIn q s.
Proof.
  intros Hq. split.
  - intros (before & later & H).
    apply toLowerCase_split in H as (before' & rest & -> & _ & H).
    apply toLowerCase_split in H as (q' & later' & -> & Hq' & _).
    apply (toLowerCase_whiteSpace_source _ _ Hq) in Hq' as ->.
    now exists before', later'.
  - intros (before & later & ->).
    exists (JS.toLowerCase before), (JS.toLowerCase later).
    now rewrite !toLowerCase_app, (toLowerCase_onlyWhiteSpace q Hq).
Qed.

Lemma basedOnIncludes_spec (searchLower : string) (d : Device) :
  basedOnIncludes searchLower d = true
  <-> exists b, basedOn d = Some b /\ JS.trim b <> ""
                /\ occursIn searchLower (JS.toLowerCase b).
Proof.
  unfold basedOnIncludes. destruct (basedOn d) as [b |].
  - rewrite !andb_true_iff, !truthy_nonempty, includes_occurs. split.
    + intros [[_ Ht] Hi]. now exists b.
    + intros (b' & [= <-] & Ht & Hi). repeat split; try assumption.
      now apply trim_nonempty_source.
  - split; [discriminate | intros (b & H & _); discriminate H].
Qed.

(** The filter callback, read as a proposition. *)
Lemma matchesSearch_spec (q : string) (d : Device) :
  q <> "" ->
  matchesSearch q d = true
  <-> occursInIgnoringCase q (name d)
      \/ occursInIgnoringCase q (category d)
      \/ exists b, basedOn d = Some b /\ JS.trim b <> "" /\ occursInIgnoringCase q b.
Proof.
  intros Hq. unfold matchesSearch, occursInIgnoringCase.
  apply truthy_nonempty in Hq. rewrite Hq. cbn [negb].
  rewrite !orb_true_iff, !includes_occurs, basedOnIncludes_spec. tauto.
Qed.

Lemma matchesSearch_empty (d : Device) : matchesSearch "" d = true.
Proof. reflexivity. Qed.

Lemma filtered_In (devices : list Device) (q : string) (d : Device) :
  In d (filtered devices q) <-> In d (releasedDevices devices) /\ matchesSearch q d = true.
Proof. unfold filtered. apply filter_In. Qed.

Lemma releasedDevices_In (devices : list Device) (d : Device) :
  In d (releasedDevices devices) <-> In d devices /\ category d <> announced.
Proof.
  unfold releasedDevices. rewrite filter_In, negb_true_iff.
  destruct (String.eqb_spec (category d) announced); intuition congruence.
Qed.

End MatchingFacts.

Section SearchClaims.
Import SearchView.

(** C3. A record that is not excluded matches the empty query; it matches a
    non-empty query exactly when the query occurs, ignoring case, in its name,
    or in its category, or in its basedOn provided basedOn is not empty once
    trimmed. On the example dataset "marshall" matches only the record based
    on "Marshall JCM800" and "secret" matches nothing. *)
Theorem C3_query_match_rule :
  (forall (devices : list Device) (q : string) (d : Device),
      In d (releasedDevices devices) ->
      (q = "" -> In d (filtered devices q))
      /\ (q <> "" ->
          (In d (filtered devices q)
           <-> occursInIgnoringCase q (name d)
               \/ occursInIgnoringCase q (category d)
               \/ exists b, basedOn d = Some b /\ JS.trim b <> ""
                            /\ occursInIgnoringCase q b)))
  /\ filtered exampleDevices "marshall" = [brit800]
  /\ filtered exampleDevices "secret" = [].
Proof.
  split; [| split; reflexivity].
  intros devices q d Hd. split.
  - intros ->. apply filtered_In. split; [exact Hd | apply matchesSearch_empty].
  - intros Hq. rewrite filtered_In, (matchesSearch_spec q d Hq). tauto.
Qed.

(** The theorem of C3 at the query "marshall" and the first record of the
    example dataset. *)
Lemma C3_query_match_rule_witness :
  In brit800 (releasedDevices exampleDevices)
  /\ occursInIgnoringCase "marshall" "Marshall JCM800"
  /\ In brit800 (filtered exampleDevices "marshall").
Proof.
  assert (Hin : In brit800 (releasedDevices exampleDevices)) by (now left).
  assert (Hocc : occursInIgnoringCase "marshall" "Marshall JCM800")
    by (now exists "", " jcm800").
  split; [exact Hin | split; [exact Hocc |]].
  apply (proj2 (proj1 C3_query_match_rule exampleDevices "marshall" _ Hin)).
  - discriminate.
  - right. right. exists "Marshall JCM800".
    split; [reflexivity | split; [discriminate | exact Hocc]].
Defined.

(** C9. A query of white space only is not the empty query: lower-casing
    leaves it as it is, and a record matches exactly when the query occurs in
    its name, or in its category, or in a basedOn that is not blank. On the
    example dataset the empty query keeps both released records, the query of
    one space keeps only the one whose name holds a space. *)
Theorem C9_whitespace_query_is_literal (q : string) (d : Device) :
  q <> "" ->
  onlyWhiteSpace q = true ->
  JS.toLowerCase q = q
  /\ (matchesSearch q d = true
      <-> occursIn q (name d)
          \/ occursIn q (category d)
          \/ exists b, basedOn d = Some b /\ JS.trim b <> "" /\ occursIn q b)
  /\ filtered exampleDevices "" = [brit800; twin]
  /\ filtered exampleDevices " " = [brit800].
Proof.
  intros Hq Hws. split; [now apply toLowerCase_onlyWhiteSpace |].
  split; [| split; reflexivity].
  rewrite (matchesSearch_spec q d Hq). unfold occursInIgnoringCase.
  rewrite (toLowerCase_onlyWhiteSpace q Hws), !(occursIn_whiteSpace q _ Hws).
  split; (intros [H | [H | (b & Hb & Ht & H)]];
    [now left | now right; left | right; right; exists b]);
    rewrite ?(occursIn_whiteSpace q b Hws) in *; now repeat split.
Qed.

(** The theorem of C9 at the query of one space and the record "Twin", which
    holds no space and so does not match. *)
Lemma C9_whitespace_query_is_literal_witness :
  " " <> "" /\ onlyWhiteSpace " " = true
  /\ matchesSearch " " twin = false
  /\ JS.toLowerCase " " = " ".
Proof.
  split; [discriminate | split; [reflexivity | split; [reflexivity |]]].
  refine (proj1 (C9_whitespace_query_is_literal " " twin _ _)).
  - discriminate.
  - reflexivity.
Defined.

End SearchClaims.

(** ** The order of the category sections *)

Section OrderFacts.
Import SearchView.

Lemma codeUnitLe_cases (a b : string) :
  codeUnitLe a b <-> OrderedTypeEx.String_as_OT.lt a b \/ a = b.
Proof.
  unfold codeUnitLe, String.leb.
  rewrite <- OrderedTypeEx.String_as_OT.cmp_lt, <- OrderedTypeEx.String_as_OT.cmp_eq.
  unfold OrderedTypeEx.String_as_OT.cmp.
  destruct (String.compare a b); intuition discriminate.
Qed.

Lemma codeUnitLt_cases (a b : string) :
  codeUnitLt a b <-> OrderedTypeEx.String_as_OT.lt a b.
Proof.
  unfold codeUnitLt, String.ltb.
  rewrite <- OrderedTypeEx.String_as_OT.cmp_lt.
  unfold OrderedTypeEx.String_as_OT.cmp.
  destruct (String.compare a b); intuition discriminate.
Qed.

Lemma codeUnitLe_total : Total codeUnitLe.
Proof. intros a b. apply String.leb_total. Qed.

Lemma codeUnitLe_trans : Transitive codeUnitLe.
Proof.
  intros a b c. rewrite !codeUnitLe_cases.
  intros [Hab | ->] [Hbc | ->]; auto.
  left. exact (OrderedTypeEx.String_as_OT.lt_trans _ _ _ Hab Hbc).
Qed.

Lemma codeUnitLe_antisym : AntiSymm eq codeUnitLe.
Proof. intros a b. apply String.leb_antisym. Qed.

Lemma codeUnitLt_of_le (a b : string) : codeUnitLe a b -> a <> b -> codeUnitLt a b.
Proof. rewrite codeUnitLe_cases, codeUnitLt_cases. intuition. Qed.

Lemma codeUnitLt_le (a b : string) : codeUnitLt a b -> codeUnitLe a b.
Proof. rewrite codeUnitLe_cases, codeUnitLt_cases. intuition. Qed.

(** A list sorted by [<=] without repeats ascends strictly. *)
Lemma StronglySorted_strict (l : list string) :
  StronglySorted codeUnitLe l -> NoDup l -> StronglySorted codeUnitLt l.
Proof.
  induction 1 as [| a l Hl IH Ha]; intros Hnd; constructor.
  - apply IH. now apply NoDup_cons_1_2 in Hnd.
  - apply NoDup_cons_1_1 in Hnd.
    rewrite Forall_forall in Ha |- *. intros b Hb.
    apply codeUnitLt_of_le; [now apply Ha | intros ->; exact (Hnd Hb)].
Qed.

(** Two strictly ascending lists with the same members are the same list. *)
Lemma strictly_sorted_unique (l1 l2 : list string) :
  StronglySorted codeUnitLt l1 -> StronglySorted codeUnitLt l2 ->
  (forall c, c ∈ l1 <-> c ∈ l2) -> l1 = l2.
Proof.
  intros H1 H2 Hmem.
  assert (Hirr : forall x, ~ codeUnitLt x x).
  { intros x. rewrite codeUnitLt_cases. intros H.
    exact (OrderedTypeEx.String_as_OT.lt_not_eq _ _ H eq_refl). }
  assert (Hnd : forall l, StronglySorted codeUnitLt l -> NoDup l).
  { induction 1 as [| a l Hl IH Ha]; constructor; [| exact IH].
    intros Hin. rewrite Forall_forall in Ha. exact (Hirr a (Ha a Hin)). }
  assert (Hle : forall l, StronglySorted codeUnitLt l -> StronglySorted codeUnitLe l).
  { induction 1 as [| a l Hl IH Ha]; constructor; [exact IH |].
    eapply Forall_impl; [exact Ha |]. intros b. apply codeUnitLt_le. }
  pose proof codeUnitLe_antisym.
  apply (StronglySorted_unique codeUnitLe); auto.
  apply NoDup_Permutation; auto.
Qed.

End OrderFacts.

(** ** Grouping by category *)

Section GroupingFacts.
Import SearchView.

Lemma groupOf_cons (k : string) (d : Device) (l : list Device) :
  groupOf k (d :: l)
  = if String.eqb (category d) k then d :: groupOf k l else groupOf k l.
Proof. reflexivity. Qed.

Lemma groupOf_In (k : string) (d : Device) (l : list Device) :
  In d (groupOf k l) <-> In d l /\ category d = k.
Proof. unfold groupOf. rewrite filter_In, String.eqb_eq. reflexivity. Qed.

Lemma groupOf_nonempty (k : string) (l : list Device) :
  groupOf k l <> [] <-> exists d, In d l /\ category d = k.
Proof.
  split.
  - destruct (groupOf k l) as [| d grp] eqn:E; [congruence |].
    intros _. exists d. apply groupOf_In. rewrite E. now left.
  - intros (d & Hd) E. apply groupOf_In in Hd. rewrite E in Hd. exact Hd.
Qed.

(** One step of the reduction: the group of the record's category gains the
    record at its end, the other groups stay. *)
Lemma groupStep_lookup (acc acc' : gmap string (list Device)) (d : Device) :
  groupStep acc d = Some acc' ->
  forall k,
    acc' !! k
    = if String.eqb (category d) k then Some (default [] (acc !! k) ++ [d])
      else acc !! k.
Proof.
  unfold groupStep. intros H k.
  destruct (String.eqb_spec (category d) k) as [<- | Hk].
  - destruct (acc !! category d) as [grp |].
    + injection H as <-. now rewrite lookup_insert_eq.
    + destruct (inherited (category d)); [discriminate H |].
      injection H as <-. now rewrite lookup_insert_eq.
  - destruct (acc !! category d) as [grp |].
    + injection H as <-. now rewrite lookup_insert_ne.
    + destruct (inherited (category d)); [discriminate H |].
      injection H as <-. now rewrite lookup_insert_ne.
Qed.

Lemma reduce_groupStep_lookup (l : list Device) :
  forall (acc g : gmap string (list Device)),
    reduce groupStep l acc = Some g ->
    forall k,
      g !! k
      = match acc !! k, groupOf k l with
        | Some grp, more => Some (grp ++ more)
        | None, [] => None
        | None, more => Some more
        end.
Proof.
  induction l as [| d l IH]; intros acc g H k.
  - injection H as <-. cbn. destruct (acc !! k); [now rewrite app_nil_r | reflexivity].
  - cbn [reduce] in H.
    destruct (groupStep acc d) as [acc' |] eqn:Hstep; [| discriminate H].
    rewrite (IH acc' g H k), (groupStep_lookup _ _ _ Hstep k), groupOf_cons.
    destruct (String.eqb (category d) k).
    + destruct (acc !! k) as [grp |]; cbn; [now rewrite <- app_assoc | reflexivity].
    + reflexivity.
Qed.

(** The groups of the view: for every category the matching records of that
    category, in the order of the dataset; no group is empty. *)
Lemma groupedDevices_lookup (devices : list Device) (q : string)
    (g : gmap string (list Device)) :
  groupedDevices devices q = Some g ->
  forall k,
    g !! k = match groupOf k (filtered devices q) with
             | [] => None
             | grp => Some grp
             end.
Proof.
  intros H k. unfold groupedDevices in H.
  rewrite (reduce_groupStep_lookup _ _ _ H k), lookup_empty. reflexivity.
Qed.

Lemma groupStep_noInheritedKey (acc acc' : gmap string (list Device)) (d : Device) :
  noInheritedKey acc -> groupStep acc d = Some acc' -> noInheritedKey acc'.
Proof.
  intros Hacc Hstep k Hk.
  rewrite (groupStep_lookup _ _ _ Hstep k).
  destruct (String.eqb_spec (category d) k) as [<- | _]; [| now apply Hacc].
  unfold groupStep in Hstep. rewrite (Hacc _ Hk), Hk in Hstep. discriminate Hstep.
Qed.

(** The reduction throws exactly when a record's category is a name
    inherited from [Object.prototype]. *)
Lemma reduce_groupStep_None (l : list Device) :
  forall acc : gmap string (list Device),
    noInheritedKey acc ->
    reduce groupStep l acc = None
    <-> Exists (fun d => inherited (category d) = true) l.
Proof.
  induction l as [| d l IH]; intros acc Hacc; cbn [reduce].
  - split; [discriminate | intros H; inversion H].
  - destruct (groupStep acc d) as [acc' |] eqn:Hstep.
    + rewrite (IH acc' (groupStep_noInheritedKey _ _ _ Hacc Hstep)).
      rewrite Exists_cons. split; [now right |].
      intros [Hd | Hl]; [| exact Hl].
      unfold groupStep in Hstep. rewrite (Hacc _ Hd), Hd in Hstep. discriminate Hstep.
    + split; [| reflexivity]. intros _. left.
      unfold groupStep in Hstep.
      destruct (acc !! category d); [discriminate Hstep |].
      destruct (inherited (category d)); [reflexivity | discriminate Hstep].
Qed.

Lemma groupedDevices_None (devices : list Device) (q : string) :
  groupedDevices devices q = None
  <-> Exists (fun d => inherited (category d) = true) (filtered devices q).
Proof. apply reduce_groupStep_None. intros k _. apply lookup_empty. Qed.

Lemma groupedDevices_is_Some (devices : list Device) (q : string) :
  is_Some (groupedDevices devices q)
  <-> Forall (fun d => inherited (category d) = false) (filtered devices q).
Proof.
  rewrite <- not_eq_None_Some, groupedDevices_None, <- Forall_Exists_neg.
  apply Forall_iff. intros d. destruct (inherited (category d)); intuition congruence.
Qed.

(** The sorted keys: strictly ascending, and exactly the categories of the
    matching records. *)
Lemma sortedCategories_elem (g : gmap string (list Device)) (c : string) :
  c ∈ sortedCategories g <-> is_Some (g !! c).
Proof.
  unfold sortedCategories.
  rewrite merge_sort_Permutation, list_elem_of_fmap. split.
  - intros ([k grp] & -> & H). apply elem_of_map_to_list in H. now exists grp.
  - intros [grp H]. exists (c, grp). split; [reflexivity |].
    now apply elem_of_map_to_list.
Qed.

Lemma sortedCategories_sorted (g : gmap string (list Device)) :
  StronglySorted codeUnitLt (sortedCategories g).
Proof.
  pose proof codeUnitLe_total. pose proof codeUnitLe_trans.
  apply StronglySorted_strict.
  - apply StronglySorted_merge_sort; assumption.
  - unfold sortedCategories. rewrite merge_sort_Permutation.
    apply NoDup_fst_map_to_list.
Qed.

Lemma mapM_all_Some {A B : Type} (f : A -> option B) (h : A -> B) (l : list A) :
  (forall x, x ∈ l -> f x = Some (h x)) -> mapM f l = Some (h <$> l).
Proof.
  intros H. apply mapM_Some.
  induction l as [| x l IH]; constructor.
  - apply H. now left.
  - apply IH. intros y Hy. apply H. now right.
Qed.

(** The rendered sections, in full. *)
Lemma Command_sections (devices : list Device) (url q : string)
    (g : gmap string (list Device)) :
  groupedDevices devices q = Some g ->
  Command devices url q
  = Some ((fun c => {| sectionTitle := c;
                       items := map (renderItem url c)
                                    (groupOf c (filtered devices q)) |})
            <$> sortedCategories g).
Proof.
  intros Hg. unfold Command. rewrite Hg.
  apply mapM_all_Some. intros c Hc.
  apply sortedCategories_elem in Hc as [grp Hgrp].
  unfold renderSection. rewrite Hgrp.
  rewrite (groupedDevices_lookup _ _ _ Hg c) in Hgrp.
  destruct (groupOf c (filtered devices q)); [discriminate Hgrp |].
  now injection Hgrp as <-.
Qed.

Lemma sortedCategories_categories (devices : list Device) (q : string)
    (g : gmap string (list Device)) (c : string) :
  groupedDevices devices q = Some g ->
  c ∈ sortedCategories g <-> exists d, In d (filtered devices q) /\ category d = c.
Proof.
  intros Hg.
  rewrite sortedCategories_elem, (groupedDevices_lookup _ _ _ Hg c), <- groupOf_nonempty.
  destruct (groupOf c (filtered devices q)); split; intros H;
    try congruence; try (now apply is_Some_None in H); try (now eexists).
Qed.

End GroupingFacts.

(** ** Records without [basedOn] *)

Section OptionalBasedOnFacts.
Import SearchView.

Lemma withEmptyBasedOn_category (d : Device) :
  category (withEmptyBasedOn d) = category d.
Proof. unfold withEmptyBasedOn. now destruct (basedOn d). Qed.

Lemma withEmptyBasedOn_matchesSearch (q : string) (d : Device) :
  matchesSearch q (withEmptyBasedOn d) = matchesSearch q d.
Proof.
  unfold withEmptyBasedOn. destruct (basedOn d) eqn:E; [reflexivity |].
  unfold matchesSearch, basedOnIncludes. cbn. now rewrite E.
Qed.

Lemma withEmptyBasedOn_renderItem (url c : string) (d : Device) :
  renderItem url c (withEmptyBasedOn d) = renderItem url c d.
Proof.
  unfold withEmptyBasedOn. destruct (basedOn d) eqn:E; [reflexivity |].
  unfold renderItem, subtitleOf, actionPanel, copyAction. cbn. now rewrite E.
Qed.

(** The guarded expressions on [basedOn] never call a method on
    [undefined]. *)
Lemma guarded_basedOn_never_throws (searchLower : string) (d : Device) :
  basedOnIncludesSteps searchLower d = Some (basedOnIncludes searchLower d)
  /\ copyActionSteps d = Some (copyAction d).
Proof.
  unfold basedOnIncludesSteps, basedOnIncludes, copyActionSteps, copyAction.
  destruct (basedOn d) as [b |]; cbn; [| split; reflexivity].
  destruct (JS.truthy b); cbn; [| split; reflexivity].
  destruct (JS.truthy (JS.trim b)); split; reflexivity.
Qed.

Lemma filter_map_commute {A : Type} (p : A -> bool) (f : A -> A) (l : list A) :
  (forall x, p (f x) = p x) ->
  List.filter p (map f l) = map f (List.filter p l).
Proof.
  intros H. induction l as [| x l IH]; [reflexivity |].
  cbn. rewrite H. destruct (p x); cbn; now rewrite IH.
Qed.

Lemma withEmptyBasedOn_filtered (devices : list Device) (q : string) :
  filtered (map withEmptyBasedOn devices) q = map withEmptyBasedOn (filtered devices q).
Proof.
  unfold filtered, releasedDevices.
  rewrite !filter_map_commute; [reflexivity | |].
  - intros d. apply withEmptyBasedOn_matchesSearch.
  - intros d. now rewrite withEmptyBasedOn_category.
Qed.

Lemma withEmptyBasedOn_groupOf (c : string) (l : list Device) :
  groupOf c (map withEmptyBasedOn l) = map withEmptyBasedOn (groupOf c l).
Proof.
  unfold groupOf. apply filter_map_commute.
  intros d. now rewrite withEmptyBasedOn_category.
Qed.

Lemma withEmptyBasedOn_Command (devices : list Device) (url q : string) :
  Command (map withEmptyBasedOn devices) url q = Command devices url q.
Proof.
  destruct (groupedDevices devices q) as [g |] eqn:Hg.
  - assert (Hsome : is_Some (groupedDevices (map withEmptyBasedOn devices) q)).
    { apply groupedDevices_is_Some. rewrite withEmptyBasedOn_filtered.
      apply Forall_map.
      assert (H : is_Some (groupedDevices devices q)) by (now exists g).
      apply groupedDevices_is_Some in H.
      eapply Forall_impl; [exact H |].
      intros d Hd. cbn. now rewrite withEmptyBasedOn_category. }
    destruct Hsome as [g' Hg'].
    rewrite (Command_sections _ url _ _ Hg), (Command_sections _ url _ _ Hg').
    f_equal.
    replace (sortedCategories g') with (sortedCategories g).
    + apply list_fmap_ext. intros _ c _. f_equal.
      rewrite withEmptyBasedOn_filtered, withEmptyBasedOn_groupOf, map_map.
      apply map_ext. intros d. apply withEmptyBasedOn_renderItem.
    + apply strictly_sorted_unique; try apply sortedCategories_sorted.
      intros c.
      rewrite (sortedCategories_categories _ _ _ c Hg),
              (sortedCategories_categories _ _ _ c Hg'),
              withEmptyBasedOn_filtered.
      split.
      * intros (d & Hd & Hc). exists (withEmptyBasedOn d).
        split; [now apply in_map | now rewrite withEmptyBasedOn_category].
      * intros (d' & Hd' & Hc). apply in_map_iff in Hd' as (d & <- & Hd).
        exists d. split; [exact Hd | now rewrite <- withEmptyBasedOn_category].
  - unfold Command at 2. rewrite Hg.
    assert (Hnone : groupedDevices (map withEmptyBasedOn devices) q = None).
    { apply groupedDevices_None. rewrite withEmptyBasedOn_filtered.
      apply groupedDevices_None in Hg.
      apply List.Exists_exists in Hg as (d & Hd & Hi).
      apply List.Exists_exists. exists (withEmptyBasedOn d).
      split; [now apply in_map | now rewrite withEmptyBasedOn_category]. }
    unfold Command. now rewrite Hnone.
Qed.

End OptionalBasedOnFacts.

Section ViewClaims.
Import SearchView.

(** When no matching record has a category named like a property of
    [Object.prototype], the view renders: one section per category of the
    matching records, the sections strictly ascending in code-unit order,
    and in each section the matching records of that category in the order
    of the dataset. *)
Lemma Command_groups_sorted_by_category (devices : list Device) (url q : string) :
  Forall (fun d => inherited (category d) = false) (filtered devices q) ->
  exists categories : list string,
    Command devices url q
    = Some ((fun c => {| sectionTitle := c;
                         items := map (renderItem url c)
                                      (groupOf c (filtered devices q)) |})
              <$> categories)
    /\ StronglySorted codeUnitLt categories
    /\ (forall c, In c categories
                  <-> exists d, In d (filtered devices q) /\ category d = c).
Proof.
  intros Hok. apply groupedDevices_is_Some in Hok as [g Hg].
  exists (sortedCategories g). split; [| split].
  - now apply Command_sections.
  - apply sortedCategories_sorted.
  - intros c. rewrite <- list_elem_of_In. now apply sortedCategories_categories.
Qed.

(** C4. Whatever the query, a record of the category "Announced devices
    that have not yet been released" is dropped before the text filter runs:
    it is in no filtered list, in no group and behind no rendered item, and
    no section bears that title. *)
Theorem C4_announced_never_shown (devices : list Device) (url q : string) :
  filtered devices q = List.filter (matchesSearch q) (releasedDevices devices)
  /\ (forall d, In d (releasedDevices devices) <-> In d devices /\ category d <> announced)
  /\ (forall d, In d (filtered devices q) -> category d <> announced)
  /\ (forall g, groupedDevices devices q = Some g ->
        g !! announced = None
        /\ forall k grp d, g !! k = Some grp -> In d grp -> category d <> announced)
  /\ (forall sections s, Command devices url q = Some sections -> In s sections ->
        sectionTitle s <> announced
        /\ exists grp,
             items s = map (renderItem url (sectionTitle s)) grp
             /\ forall d, In d grp -> In d devices /\ category d <> announced).
Proof.
  assert (Hfiltered : forall d, In d (filtered devices q) ->
                                In d devices /\ category d <> announced).
  { intros d [Hd _]%filtered_In. now apply releasedDevices_In. }
  assert (Hgroup : forall k d, In d (groupOf k (filtered devices q)) ->
                               In d devices /\ category d <> announced).
  { intros k d [Hd _]%groupOf_In. now apply Hfiltered. }
  split; [reflexivity | split; [apply releasedDevices_In | split; [| split]]].
  - intros d Hd. now apply Hfiltered.
  - intros g Hg. split.
    + rewrite (groupedDevices_lookup _ _ _ Hg announced).
      destruct (groupOf announced (filtered devices q)) as [| d grp] eqn:E; [reflexivity |].
      assert (Hd : In d (groupOf announced (filtered devices q))) by (rewrite E; now left).
      apply groupOf_In in Hd as [Hd Hc]. now apply Hfiltered in Hd.
    + intros k grp d Hk Hd.
      rewrite (groupedDevices_lookup _ _ _ Hg k) in Hk.
      destruct (groupOf k (filtered devices q)) as [| d0 grp0] eqn:E; [discriminate Hk |].
      injection Hk as <-. rewrite <- E in Hd. now apply Hgroup in Hd.
  - intros sections s Hcmd Hs.
    destruct (groupedDevices devices q) as [g |] eqn:Hg;
      [| unfold Command in Hcmd; rewrite Hg in Hcmd; discriminate Hcmd].
    rewrite (Command_sections _ url _ _ Hg) in Hcmd. injection Hcmd as <-.
    apply list_elem_of_In, list_elem_of_fmap in Hs as (c & -> & Hc). cbn.
    split.
    + intros ->.
      apply (sortedCategories_categories _ _ _ announced Hg) in Hc as (d & Hd & Hcat).
      now apply Hfiltered in Hd.
    + exists (groupOf c (filtered devices q)). split; [reflexivity |].
      intros d Hd. now apply Hgroup in Hd.
Qed.

(** The theorem of C4 on the example dataset with the empty query: the
    record "Secret" of the excluded category is not among the matches. *)
Lemma C4_announced_never_shown_witness :
  In secret exampleDevices
  /\ category secret = announced
  /\ ~ In secret (filtered exampleDevices "")
  /\ filtered exampleDevices "" = [brit800; twin].
Proof.
  split; [now right; right; left | split; [reflexivity | split; [| reflexivity]]].
  intros Hin.
  exact (proj1 (proj2 (proj2 (C4_announced_never_shown exampleDevices "" "")))
           secret Hin eq_refl).
Defined.

(** C5, at the input where the code falls short of it. The claim holds for
    every set of matching records whose categories are no names inherited
    from [Object.prototype] ([Command_groups_sorted_by_category]); with the
    category "constructor" among them the reduction throws and nothing is
    rendered, neither for the empty query nor for one that matches the
    record. The specification's own example renders "A-cat" before "Z-cat". *)
Theorem C5_inherited_category_throws :
  filtered clashingDevices "" = clashingDevices
  /\ Command clashingDevices "https://neuraldsp.com/device-list" "" = None
  /\ Command clashingDevices "https://neuraldsp.com/device-list" "clash" = None
  /\ fmap (map sectionTitle) (Command mixedDevices "https://neuraldsp.com/device-list" "")
     = Some ["A-cat"; "Z-cat"].
Proof. repeat split; vm_compute; reflexivity. Qed.

(** C7 (as amended). The subtitle of a rendered record is its basedOn as it
    stands, blank or not, and the empty string when the record has none. *)
Theorem C7_subtitle_is_basedOn_as_is (url c : string) (d : Device) :
  subtitle (renderItem url c d)
  = match basedOn d with
    | Some b => b
    | None => ""
    end.
Proof.
  cbn. unfold subtitleOf.
  destruct (basedOn d) as [b |]; [apply truthy_or_else_empty | reflexivity].
Qed.

(** C7 as it is worded fails: a basedOn of two spaces is blank, and the
    subtitle shows the two spaces, not the empty string. *)
Lemma C7_blank_basedOn_is_shown :
  onlyWhiteSpace "  " = true
  /\ JS.trim "  " = ""
  /\ subtitle (renderItem "https://neuraldsp.com/device-list" "Z-cat"
                 {| category := "Z-cat"; name := "z2"; basedOn := Some "  " |})
     = "  "
  /\ "  " <> "".
Proof. repeat split; try reflexivity. discriminate. Qed.

(** C8. A rendered record offers the copy action exactly when it has a
    basedOn that is not empty once trimmed, and the action carries that
    basedOn untouched; it always offers the action that opens the reference
    page, with the one URL of the view. No other action is offered. *)
Theorem C8_actions_offered (url c : string) (d : Device) :
  (forall content title,
      In (CopyToClipboard content title) (actions (renderItem url c d))
      <-> basedOn d = Some content /\ JS.trim content <> ""
          /\ title = "Copy 'Based On' to Clipboard")
  /\ (forall target title,
        In (OpenInBrowser target title) (actions (renderItem url c d))
        <-> target = url /\ title = "Open Quad Cortex device list in browser")
  /\ ((exists content title,
          In (CopyToClipboard content title) (actions (renderItem url c d)))
      <-> exists b, basedOn d = Some b /\ JS.trim b <> "").
Proof.
  assert (Hcopy : forall content title,
      In (CopyToClipboard content title) (actions (renderItem url c d))
      <-> basedOn d = Some content /\ JS.trim content <> ""
          /\ title = "Copy 'Based On' to Clipboard").
  { intros content title. cbn. unfold actionPanel, copyAction.
    rewrite in_app_iff.
    destruct (basedOn d) as [b |].
    - destruct (JS.truthy b && JS.truthy (JS.trim b)) eqn:E.
      + apply andb_true_iff in E as [_ Ht]. apply truthy_nonempty in Ht.
        cbn. split.
        * intros [[H | []] | [H | []]]; [| discriminate H].
          injection H as <- <-. auto.
        * intros ([= <-] & _ & ->). auto.
      + cbn. split.
        * intros [[] | [H | []]]. discriminate H.
        * intros ([= <-] & Ht & _). exfalso.
          apply andb_false_iff in E as [E | E];
            apply not_true_iff_false in E; apply E, truthy_nonempty;
            [now apply trim_nonempty_source | exact Ht].
    - cbn. split.
      + intros [[] | [H | []]]. discriminate H.
      + intros (H & _). discriminate H. }
  split; [exact Hcopy | split].
  - intros target title. cbn. unfold actionPanel, copyAction.
    rewrite in_app_iff. cbn. split.
    + intros [H | [H | []]].
      * destruct (basedOn d) as [b |]; [| destruct H].
        destruct (JS.truthy b && JS.truthy (JS.trim b)); [| destruct H].
        destruct H as [H | []]. discriminate H.
      * injection H as <- <-. auto.
    + intros [-> ->]. auto.
  - split.
    + intros (content & title & H). apply Hcopy in H as (H & Ht & _). now exists content.
    + intros (b & H & Ht). exists b, "Copy 'Based On' to Clipboard".
      now apply Hcopy.
Qed.

(** C10. Every method call on basedOn stands behind a presence check, so it
    never meets [undefined]: evaluated operand by operand, the guarded
    expressions always return. A record without basedOn behaves like one
    whose basedOn is the empty string: the filter, the rendered item and the
    whole rendered list are the same for both. Such a record still matches on its name or its
    category, its subtitle is empty and it offers no copy action. Whether the
    view renders at all does not depend on basedOn. *)
Theorem C10_absent_basedOn_like_empty :
  (forall searchLower d,
      basedOnIncludesSteps searchLower d = Some (basedOnIncludes searchLower d)
      /\ copyActionSteps d = Some (copyAction d))
  /\ (forall q d, matchesSearch q (withEmptyBasedOn d) = matchesSearch q d)
  /\ (forall url c d, renderItem url c (withEmptyBasedOn d) = renderItem url c d)
  /\ (forall devices url q,
        Command (map withEmptyBasedOn devices) url q = Command devices url q)
  /\ (forall d, basedOn d = None ->
        subtitleOf d = "" /\ copyAction d = []
        /\ forall q, matchesSearch q d = true
                     <-> q = ""
                         \/ occursInIgnoringCase q (name d)
                         \/ occursInIgnoringCase q (category d))
  /\ (forall devices q,
        is_Some (groupedDevices devices q)
        <-> Forall (fun d => inherited (category d) = false) (filtered devices q)).
Proof.
  split; [exact guarded_basedOn_never_throws |].
  split; [exact withEmptyBasedOn_matchesSearch |].
  split; [exact withEmptyBasedOn_renderItem |].
  split; [exact withEmptyBasedOn_Command |].
  split; [| exact groupedDevices_is_Some].
  intros d Hd. unfold subtitleOf, copyAction. rewrite Hd.
  split; [reflexivity | split; [reflexivity |]].
  intros q. destruct q as [| a q].
  - split; [now left | reflexivity].
  - rewrite matchesSearch_spec by discriminate. rewrite Hd. split.
    + intros [H | [H | (b & H & _)]]; [now right; left | now right; right | discriminate H].
    + intros [H | [H | H]]; [discriminate H | now left | now right; left].
Qed.

End ViewClaims.

(** * Properties of the scraper run *)

Section RunClaims.
Import Dom Extractor Scraper.

Ltac run_trace :=
  cbv [trace main scrapeDeviceList mbind mret M_bind M_ret emit await catch
       finally fst snd app negb existsb isWrite exitStatus rev firstn
       launch newPage goto waitForSelector evaluate close existsSync
       mkdirSync writeFileSync isOk andb extractionThrows].

Lemma ends_with_last_two {A : Type} (l : list A) (a b : A) :
  firstn 2 (rev l) = [b; a] -> exists before, l = before ++ [a; b].
Proof.
  intros H. exists (rev (skipn 2 (rev l))).
  rewrite <- (rev_involutive l) at 1.
  rewrite <- (firstn_skipn 2 (rev l)) at 1.
  rewrite H. cbn. now rewrite <- app_assoc.
Qed.

(** When an unguarded call of the extraction throws, the run writes no file,
    logs the error and exits with status 1. *)
Lemma failed_extraction_trace (w : World) :
  extractionThrows w = true ->
  existsb isWrite (trace w) = false
  /\ exitStatus (trace w) = 1
  /\ exists error,
       firstn 2 (rev (trace w))
       = [ProcessExit 1; ConsoleError "Error scraping device list:" error].
Proof.
  destruct w as [l n g wfs ev c dir ex mk wr].
  destruct l as [[] | el], n as [[] | en], g as [[] | eg], wfs as [[] | ewfs],
           ev as [doc | eev], c as [[] | ec];
    run_trace; intros H; try discriminate H;
    (split; [reflexivity | split; [reflexivity | eexists; reflexivity]]).
Qed.

(** A file is written only by a run whose extraction returned, and what is
    written is the records extracted from the rendered document. *)
Lemma write_follows_extraction (w : World) (path : string) (data : list Device) :
  In (WriteFileSync path data) (trace w) ->
  extractionThrows w = false
  /\ path = outputPath w
  /\ exists document, evaluate w = Ok document /\ data = extractDevices document.
Proof.
  destruct w as [l n g wfs ev c dir ex mk wr].
  destruct l as [[] | el], n as [[] | en], g as [[] | eg], wfs as [[] | ewfs],
           ev as [doc | eev], c as [[] | ec], ex, mk as [[] | emk], wr as [[] | ewr];
    run_trace; cbn [In]; intros H;
    repeat (destruct H as [H | H]; try discriminate H); try contradiction;
    injection H as <- <-;
    (split; [reflexivity | split; [reflexivity | eexists; split; reflexivity]]).
Qed.

(** C6 (as amended). If an error leaves the extraction (the browser launch,
    the page, the navigation, the in-page evaluation or the closing of the
    browser throws), the run logs the error and then exits with status 1,
    and no dataset file is written; a write only ever follows an extraction
    that returned, and writes what it returned. A failed wait for the first
    heading is no such error: it is caught and logged as a warning. *)
Theorem C6_failed_extraction_writes_nothing :
  (forall w : World,
      extractionThrows w = true ->
      (forall path data, ~ In (WriteFileSync path data) (trace w))
      /\ exitStatus (trace w) = 1
      /\ exists error before,
           trace w
           = before ++ [ConsoleError "Error scraping device list:" error; ProcessExit 1])
  /\ (forall (w : World) path data,
        In (WriteFileSync path data) (trace w) ->
        extractionThrows w = false
        /\ path = outputPath w
        /\ exists document, evaluate w = Ok document /\ data = extractDevices document)
  /\ (forall (w : World) error,
        waitForSelector w = Throw error ->
        extractionThrows w = false ->
        isOk (mkdirSync w) = true ->
        isOk (writeFileSync w) = true ->
        In (ConsoleWarn "No h2 headings found") (trace w)
        /\ existsb isWrite (trace w) = true
        /\ exitStatus (trace w) = 0)
  /\ trace offlineWorld
     = [ ConsoleLog LaunchingBrowser; ConsoleLog FetchingPage; BrowserClose;
         ConsoleError "Error scraping device list:" "net::ERR_NAME_NOT_RESOLVED";
         ProcessExit 1 ].
Proof.
  split; [| split; [exact write_follows_extraction | split; [| reflexivity]]].
  - intros w Hw.
    destruct (failed_extraction_trace w Hw) as (Hwrite & Hexit & error & Hlast).
    split; [| split; [exact Hexit |]].
    + intros path data Hin.
      assert (existsb isWrite (trace w) = true); [| congruence].
      apply existsb_exists. now exists (WriteFileSync path data).
    + exists error. now apply ends_with_last_two.
  - intros w error Hwait Hok Hmk Hwr.
    destruct w as [l n g wfs ev c dir ex mk wr]. cbn in Hwait, Hmk, Hwr. subst wfs.
    destruct l as [[] | el], n as [[] | en], g as [[] | eg],
             ev as [doc | eev], c as [[] | ec];
      try discriminate Hok.
    destruct mk as [[] | emk]; [| discriminate Hmk].
    destruct wr as [[] | ewr]; [| discriminate Hwr].
    destruct ex; run_trace; cbn [In]; (split; [tauto | split; reflexivity]).
Qed.

(** The theorem of C6 on a run whose navigation fails. *)
Lemma C6_failed_extraction_writes_nothing_witness :
  extractionThrows offlineWorld = true
  /\ exitStatus (trace offlineWorld) = 1
  /\ forall path data, ~ In (WriteFileSync path data) (trace offlineWorld).
Proof.
  assert (Hthrows : extractionThrows offlineWorld = true) by reflexivity.
  destruct (proj1 C6_failed_extraction_writes_nothing offlineWorld Hthrows)
    as (Hwrite & Hexit & _).
  split; [exact Hthrows | split; [exact Hexit | exact Hwrite]].
Defined.

(** C6 as it is worded fails for the wait: when waiting for the first
    heading throws, the run goes on, writes the dataset file and ends with
    status 0. *)
Lemma C6_failed_wait_still_writes :
  waitForSelector slowWorld = Throw "TimeoutError: waiting for selector h2 failed"
  /\ existsb isWrite (trace slowWorld) = true
  /\ In (WriteFileSync "/repo/lib/devices.json" (extractDevices samplePage)) (trace slowWorld)
  /\ exitStatus (trace slowWorld) = 0.
Proof.
  split; [reflexivity | split; [reflexivity | split; [| reflexivity]]].
  vm_compute. auto 10.
Qed.

End RunClaims.

(** * Further properties of the extractor *)

Section TrimFacts.

Lemma trimEnd_kept (c : ascii) (r : string) :
  JS.isWhiteSpace c = false -> JS.trimEnd (String c r) = String c (JS.trimEnd r).
Proof.
  intros Hc. cbn. rewrite Hc. now destruct (JS.trimEnd r).
Qed.

Lemma trimEnd_idempotent (s : string) : JS.trimEnd (JS.trimEnd s) = JS.trimEnd s.
Proof.
  induction s as [| c r IH]; [reflexivity |].
  cbn [JS.trimEnd].
  destruct (JS.trimEnd r) as [| c' r'] eqn:E.
  - destruct (JS.isWhiteSpace c) eqn:Hc; [reflexivity |].
    cbn. now rewrite Hc.
  - cbn [JS.trimEnd] in IH |- *. now rewrite IH.
Qed.

(** What [trimStart] leaves is empty or starts with a character that is no
    white space. *)
Lemma trimStart_head (s : string) :
  JS.trimStart s = EmptyString
  \/ exists c r, JS.trimStart s = String c r /\ JS.isWhiteSpace c = false.
Proof.
  induction s as [| c r IH]; [now left |].
  cbn. destruct (JS.isWhiteSpace c) eqn:Hc; [exact IH |].
  right. now exists c, r.
Qed.

(** Trimming twice is trimming once. *)
Lemma trim_idempotent (s : string) : JS.trim (JS.trim s) = JS.trim s.
Proof.
  unfold JS.trim.
  destruct (trimStart_head s) as [-> | (c & r & -> & Hc)]; [reflexivity |].
  rewrite (trimEnd_kept c r Hc). cbn [JS.trimStart]. rewrite Hc.
  now rewrite (trimEnd_kept c _ Hc), trimEnd_idempotent.
Qed.

End TrimFacts.

Section ExtractorExtras.
Import Dom Extractor.

(** The only record a row can yield. *)
Lemma pushRow_In (category : string) (r : Node) (d : Device) :
  In d (pushRow category [] r) ->
  wellFormedRow r = true
  /\ d = {| category := category;
            name := JS.trim (cellText 0 r);
            basedOn := JS.trim (cellText 1 r) |}.
Proof.
  unfold pushRow, wellFormedRow, cellText.
  destruct (querySelectorAll cellSelector r) as [| c0 [| c1 cells]];
    try (intros []).
  cbn [nth_error]. rewrite !truthy_or_else_empty.
  destruct (JS.trim (textContent c0)) as [| a s]; [intros [] |].
  cbn. intros [<- | []]. split; reflexivity.
Qed.

(** Every record a walk adds comes from a row below one of the siblings. *)
Lemma walkSiblings_In (category : string) (siblings : list Node) (d : Device) :
  In d (walkSiblings category [] siblings) ->
  exists box r,
    In box siblings /\ In r (querySelectorAll rowSelector box)
    /\ In d (pushRow category [] r).
Proof.
  induction siblings as [| n rest IH]; cbn [walkSiblings]; [intros [] |].
  assert (Hrest : In d (walkSiblings category [] rest) ->
                  exists box r, In box (n :: rest)
                                /\ In r (querySelectorAll rowSelector box)
                                /\ In d (pushRow category [] r)).
  { intros H. destruct (IH H) as (box & r & Hbox & Hr).
    exists box, r. split; [now right | exact Hr]. }
  destruct n as [data | tag classes children]; [exact Hrest |].
  destruct (matches h2 _); [intros [] |].
  destruct (Nat.ltb 0 _); [| exact Hrest].
  rewrite fold_pushRow. cbn [app]. intros H.
  apply in_flat_map in H as (r & Hr & Hd).
  exists (Element tag classes children), r. split; [now left | now split].
Qed.

(** Where a record comes from: a heading of the document with text that is
    not blank, a later sibling of that heading, and a well-formed row below
    that sibling. *)
Lemma extractDevices_In (document : Document) (d : Device) :
  In d (extractDevices document) ->
  exists h box r,
    In h (locateForest h2 document)
    /\ JS.trim (textContent (node h)) <> ""
    /\ In box (after h)
    /\ In r (querySelectorAll rowSelector box)
    /\ wellFormedRow r = true
    /\ d = {| category := JS.trim (textContent (node h));
              name := JS.trim (cellText 0 r);
              basedOn := JS.trim (cellText 1 r) |}.
Proof.
  rewrite extractDevices_concat. intros H.
  apply in_flat_map in H as (h & Hh & Hd).
  rewrite visitHeading_unfold in Hd.
  destruct (JS.truthy (JS.trim (textContent (node h)))) eqn:Ht; [| destruct Hd].
  apply truthy_nonempty in Ht.
  apply walkSiblings_In in Hd as (box & r & Hbox & Hr & Hd).
  apply pushRow_In in Hd as [Hwf ->].
  exists h, box, r. repeat split; assumption.
Qed.

Lemma wellFormedRow_name (r : Node) :
  wellFormedRow r = true -> JS.trim (cellText 0 r) <> "".
Proof.
  unfold wellFormedRow, cellText.
  destruct (querySelectorAll cellSelector r) as [| c0 [| c1 cells]]; try discriminate.
  cbn [nth_error]. intros H E. rewrite E in H. discriminate H.
Qed.

(** X1. Every extracted record has a name and a category that are not
    empty, and none of its three fields carries white space at either end
    (each field is its own trim). *)
Theorem X1_extracted_records_are_trimmed (document : Document) (d : Device) :
  In d (extractDevices document) ->
  name d <> "" /\ category d <> ""
  /\ JS.trim (name d) = name d
  /\ JS.trim (category d) = category d
  /\ JS.trim (basedOn d) = basedOn d.
Proof.
  intros H.
  apply extractDevices_In in H as (h & box & r & _ & Ht & _ & _ & Hwf & ->).
  cbn [name category basedOn]. rewrite !trim_idempotent.
  repeat split; try assumption. now apply wellFormedRow_name.
Qed.

(** The theorem of X1 at the first record of [samplePage], read from the
    cell " Brit 800 ". *)
Lemma X1_extracted_records_are_trimmed_witness :
  In {| category := "Guitar amps"; name := "Brit 800"; basedOn := "Marshall JCM800" |}
     (extractDevices samplePage)
  /\ JS.trim "Brit 800" = "Brit 800".
Proof.
  assert (Hin : In {| category := "Guitar amps"; name := "Brit 800";
                      basedOn := "Marshall JCM800" |}
                   (extractDevices samplePage)) by (now left).
  split; [exact Hin |].
  exact (proj1 (proj2 (proj2 (X1_extracted_records_are_trimmed samplePage _ Hin)))).
Defined.



(** X3. The records come out in heading order, then row order: the output
    is the concatenation, over the [h2] elements in document order, of what
    each heading contributes on its own. Visiting a heading only appends:
    the records collected so far stay as they are, and what the heading adds
    does not depend on them. *)
Theorem X3_output_is_concatenation_over_headings :
  (forall document : Document,
      extractDevices document
      = flat_map (visitHeading []) (locateForest h2 document)
      /\ map node (locateForest h2 document) = selectForest h2 document)
  /\ (forall (results : list Device) (h : Located),
        visitHeading results h = results ++ visitHeading [] h)
  /\ (forall (category : string) (results : list Device) (rows : list Node),
        fold_left (pushRow category) rows results
        = results ++ flat_map (pushRow category []) rows).
Proof.
  split; [| split].
  - intros document. split; [apply extractDevices_concat | apply locateForest_nodes].
  - exact visitHeading_appends.
  - intros category results rows. apply fold_pushRow.
Qed.

(** X4. Rows are only looked for below a sibling of the heading, never at
    the sibling itself: when no later sibling has a row among its
    descendants, the heading contributes nothing, even if the siblings are
    rows themselves. *)
Theorem X4_rows_are_sought_below_siblings (h : Located) (results : list Device) :
  (forall n, In n (after h) -> querySelectorAll rowSelector n = []) ->
  visitHeading results h = results.
Proof.
  intros Hnone. rewrite visitHeading_unfold.
  destruct (JS.truthy _); [| reflexivity].
  induction (after h) as [| n rest IH]; [reflexivity |].
  cbn [walkSiblings].
  assert (Hrest : walkSiblings (JS.trim (textContent (node h))) results rest = results).
  { apply IH. intros m Hm. apply Hnone. now right. }
  destruct n as [data | tag classes children]; [exact Hrest |].
  destruct (matches h2 _); [reflexivity |].
  rewrite (Hnone (Element tag classes children)) by (now left).
  exact Hrest.
Qed.

(** The theorem of X4 on a page whose rows follow the heading with no
    container around them: both siblings match the row selector, and nothing
    is extracted. *)
Lemma X4_rows_are_sought_below_siblings_witness :
  Forall (fun n => matches rowSelector n = true) (after bareRowsHeading)
  /\ locateForest h2 bareRowsPage = [bareRowsHeading]
  /\ visitHeading [] bareRowsHeading = [].
Proof.
  split; [repeat constructor | split; [reflexivity |]].
  apply X4_rows_are_sought_below_siblings.
  intros n [<- | [<- | []]]; reflexivity.
Defined.

End ExtractorExtras.

(** * Further properties of the scraper run *)

Section RunExtras.
Import Dom Extractor Scraper.

Ltac run_events :=
  cbv [trace main scrapeDeviceList mbind mret M_bind M_ret emit await catch
       finally fst snd app negb orb andb existsb List.filter
       isWrite isClose isMkdir isExit isErrorLog beforeClose exitStatus
       runSucceeds extractionThrows isOk outputPath libDir
       launch newPage goto waitForSelector evaluate close cwd existsSync
       mkdirSync writeFileSync].

Ltac each_world w :=
  destruct w as [l n g wfs ev c dir ex mk wr];
  destruct l as [[] | el], n as [[] | en], g as [[] | eg], wfs as [[] | ewfs],
           ev as [doc | eev], c as [[] | ec], ex, mk as [[] | emk], wr as [[] | ewr].

(** X5. The browser is closed exactly once on every path of a run whose
    launch succeeded, an error path or not, and never when the launch itself
    failed. It is closed before the run touches the file system or exits. *)
Theorem X5_browser_closed_on_every_path (w : World) :
  length (List.filter isClose (trace w)) = (if isOk (launch w) then 1 else 0)
  /\ (isOk (launch w) = true ->
      existsb (fun e => isMkdir e || isWrite e || isExit e) (beforeClose (trace w))
      = false).
Proof.
  each_world w; run_events; cbn [length]; split; try reflexivity;
    intros H; try reflexivity; discriminate H.
Qed.

(** X6. The run ends with status 0 exactly when nothing threw on the way
    (the extraction returned, the directory was there or could be made, the
    file could be written); in every other case it logs one error and exits
    with status 1. *)
Theorem X6_exit_status_tells_success (w : World) :
  exitStatus (trace w) = (if runSucceeds w then 0 else 1)
  /\ existsb isErrorLog (trace w) = negb (runSucceeds w)
  /\ length (List.filter isErrorLog (trace w)) <= 1
  /\ length (List.filter isExit (trace w)) <= 1.
Proof.
  each_world w; run_events; cbn [length]; repeat split; lia.
Qed.


(** X8. A run on which nothing throws issues, in this order: the two
    progress lines, the warning if the wait for a heading failed, the closing
    of the browser, the count of records, the creation of the directory if it
    was missing, the write of the extracted records, the count again, and the
    summary. Both counts are the number of records written. *)
Theorem X8_trace_of_a_successful_run (w : World) (document : Document) :
  evaluate w = Ok document ->
  runSucceeds w = true ->
  let devices := extractDevices document in
  trace w
  = [ConsoleLog LaunchingBrowser; ConsoleLog FetchingPage]
      ++ (if isOk (waitForSelector w) then [] else [ConsoleWarn "No h2 headings found"])
      ++ [BrowserClose; ConsoleLog (Scraped (length devices))]
      ++ (if existsSync w then [] else [MkdirSync (libDir w)])
      ++ [ WriteFileSync (outputPath w) devices;
           ConsoleLog (Wrote (length devices) (outputPath w));
           ConsoleLog (Summary devices) ].
Proof.
  intros Hev Hok devices. subst devices.
  each_world w; cbn in Hev; try discriminate Hev; injection Hev as ->;
    try discriminate Hok; reflexivity.
Qed.

(** The theorem of X8 on a run over [samplePage] with the directory in
    place: three records are counted and written. *)
Lemma X8_trace_of_a_successful_run_witness :
  runSucceeds (calmWorld samplePage) = true
  /\ trace (calmWorld samplePage)
     = [ ConsoleLog LaunchingBrowser; ConsoleLog FetchingPage; BrowserClose;
         ConsoleLog (Scraped 3);
         WriteFileSync "/repo/lib/devices.json" (extractDevices samplePage);
         ConsoleLog (Wrote 3 "/repo/lib/devices.json");
         ConsoleLog (Summary (extractDevices samplePage)) ].
Proof.
  split; [reflexivity |].
  exact (X8_trace_of_a_successful_run (calmWorld samplePage) samplePage
           eq_refl eq_refl).
Defined.

End RunExtras.

(** * Further properties of the search view *)

Section QueryExtras.
Import SearchView.




Lemma toLowerCase_empty (q : string) : JS.toLowerCase q = "" <-> q = "".
Proof. destruct q; cbn; split; congruence. Qed.

(** Queries with the same lower-case form are the same to the filter. *)
Lemma matchesSearch_case (q q' : string) (d : Device) :
  JS.toLowerCase q = JS.toLowerCase q' -> matchesSearch q d = matchesSearch q' d.
Proof.
  intros H. unfold matchesSearch. rewrite <- H.
  replace (JS.truthy q') with (JS.truthy q); [reflexivity |].
  destruct q, q'; try reflexivity; discriminate H.
Qed.

Lemma lowerChar_idempotent (c : ascii) : JS.lowerChar (JS.lowerChar c) = JS.lowerChar c.
Proof. destruct c as [[] [] [] [] [] [] [] []]; reflexivity. Qed.

Lemma toLowerCase_idempotent (s : string) :
  JS.toLowerCase (JS.toLowerCase s) = JS.toLowerCase s.
Proof.
  induction s as [| c r IH]; cbn; [reflexivity |].
  now rewrite lowerChar_idempotent, IH.
Qed.

Lemma List_filter_sublist {A : Type} (p : A -> bool) (l : list A) :
  sublist (List.filter p l) l.
Proof.
  induction l as [| x l IH]; cbn; [constructor |].
  destruct (p x); now constructor.
Qed.

Lemma List_filter_all {A : Type} (p : A -> bool) (l : list A) :
  (forall x, p x = true) -> List.filter p l = l.
Proof.
  intros H. induction l as [| x l IH]; cbn; [reflexivity |].
  now rewrite H, IH.
Qed.



(** X10. The case of the query plays no part: two queries with the same
    lower-case form select the same records, and so does a query and its
    lower-case form. *)
Theorem X10_query_case_is_ignored (devices : list Device) (q q' : string) :
  JS.toLowerCase q = JS.toLowerCase q' ->
  filtered devices q = filtered devices q'
  /\ filtered devices (JS.toLowerCase q) = filtered devices q.
Proof.
  intros H. unfold filtered. split; apply filter_ext; intros d.
  - now apply matchesSearch_case.
  - apply matchesSearch_case, toLowerCase_idempotent.
Qed.

(** The theorem of X10 at "MARSHALL" and "Marshall". *)
Lemma X10_query_case_is_ignored_witness :
  JS.toLowerCase "MARSHALL" = JS.toLowerCase "Marshall"
  /\ filtered exampleDevices "MARSHALL" = filtered exampleDevices "Marshall".
Proof.
  split; [reflexivity |].
  exact (proj1 (X10_query_case_is_ignored exampleDevices "MARSHALL" "Marshall" eq_refl)).
Defined.

(** X11. The matches keep the order of the dataset and repeat nothing: for
    every query they are a sublist of the dataset. The empty query selects
    every record but those of the excluded category. *)
Theorem X11_matches_are_a_sublist (devices : list Device) (q : string) :
  sublist (filtered devices q) devices
  /\ filtered devices "" = releasedDevices devices
  /\ (forall d, In d devices -> category d <> announced -> In d (filtered devices "")).
Proof.
  split; [| split].
  - unfold filtered, releasedDevices.
    etransitivity; apply List_filter_sublist.
  - unfold filtered. now apply List_filter_all.
  - intros d Hd Hc. apply filtered_In. split; [| reflexivity].
    now apply releasedDevices_In.
Qed.

End QueryExtras.

Section RenderingExtras.
Import SearchView.

Lemma sortedCategories_NoDup (g : gmap string (list Device)) :
  NoDup (sortedCategories g).
Proof.
  unfold sortedCategories. rewrite merge_sort_Permutation.
  apply NoDup_fst_map_to_list.
Qed.

Lemma groupOf_other (k : string) (d : Device) (l : list Device) :
  category d <> k -> groupOf k (d :: l) = groupOf k l.
Proof.
  intros H. rewrite groupOf_cons.
  now destruct (String.eqb_spec (category d) k).
Qed.

Lemma groupOf_same (d : Device) (l : list Device) :
  groupOf (category d) (d :: l) = d :: groupOf (category d) l.
Proof. rewrite groupOf_cons. now rewrite String.eqb_refl. Qed.

Lemma flat_map_groupOf_skip (cs : list string) (d : Device) (l : list Device) :
  ~ In (category d) cs ->
  flat_map (fun c => groupOf c (d :: l)) cs = flat_map (fun c => groupOf c l) cs.
Proof.
  induction cs as [| c cs IH]; intros H; [reflexivity |].
  cbn [flat_map]. rewrite IH by (intros Hc; apply H; now right).
  rewrite groupOf_other; [reflexivity |].
  intros E. apply H. now left.
Qed.

(** Groups taken over distinct categories that cover the list split it up:
    together they hold every record once. *)
Lemma groupOf_partition (cs : list string) (l : list Device) :
  NoDup cs ->
  (forall d, In d l -> In (category d) cs) ->
  Permutation (flat_map (fun c => groupOf c l) cs) l.
Proof.
  intros Hnd. induction l as [| d l IH]; intros Hcover.
  - induction cs as [| c cs IHcs]; [constructor |].
    cbn. apply IHcs; [now apply NoDup_cons_1_2 in Hnd | intros d []].
  - assert (Hd : In (category d) cs) by (apply Hcover; now left).
    apply in_split in Hd as (cs1 & cs2 & E).
    assert (Hnot : ~ In (category d) cs1 /\ ~ In (category d) cs2).
    { rewrite E in Hnd. apply NoDup_app in Hnd as (_ & Hsep & Hnd2).
      rewrite <- !list_elem_of_In. split.
      - intros H1. apply (Hsep _ H1). now left.
      - now apply NoDup_cons_1_1 in Hnd2. }
    specialize (IH (fun x Hx => Hcover x (or_intror Hx))).
    rewrite E in IH |- *.
    rewrite flat_map_app in IH |- *. cbn [flat_map] in IH |- *.
    rewrite !flat_map_groupOf_skip by tauto.
    rewrite groupOf_same. cbn [app].
    rewrite <- Permutation_middle. now constructor.
Qed.

Lemma flat_map_map_items (url : string) (cs : list string) (l : list Device) :
  flat_map (fun c => map (renderItem url c) (groupOf c l)) cs
  = map (fun d => renderItem url (category d) d)
        (flat_map (fun c => groupOf c l) cs).
Proof.
  induction cs as [| c cs IH]; [reflexivity |].
  cbn [flat_map]. rewrite map_app, IH. f_equal.
  apply map_ext_in. intros d Hd. apply groupOf_In in Hd as [_ ->]. reflexivity.
Qed.

(** X12. When no matching record has a category named like a property of
    [Object.prototype], the view renders one section per category of the
    matching records: the titles ascend strictly in code-unit order, no
    section is empty, every matching record falls under the section of its
    category, and a section lists the matching records of its category in
    the order of the dataset. *)
Theorem X12_sections_sorted_and_filled (devices : list Device) (url q : string) :
  Forall (fun d => inherited (category d) = false) (filtered devices q) ->
  exists sections : list ListSection,
    Command devices url q = Some sections
    /\ StronglySorted codeUnitLt (map sectionTitle sections)
    /\ (forall s, In s sections ->
          items s <> []
          /\ items s = map (renderItem url (sectionTitle s))
                           (groupOf (sectionTitle s) (filtered devices q)))
    /\ (forall d, In d (filtered devices q) ->
          exists s, In s sections /\ sectionTitle s = category d).
Proof.
  intros Hok. apply groupedDevices_is_Some in Hok as [g Hg].
  eexists. split; [exact (Command_sections _ url _ _ Hg) |].
  split; [| split].
  - replace (map sectionTitle _) with (sortedCategories g);
      [apply sortedCategories_sorted |].
    induction (sortedCategories g) as [| c cs IH]; [reflexivity |].
    cbn. now rewrite <- IH.
  - intros s Hs.
    apply list_elem_of_In, list_elem_of_fmap in Hs as (c & -> & Hc). cbn.
    split; [| reflexivity].
    apply (sortedCategories_categories _ _ _ c Hg), groupOf_nonempty in Hc.
    destruct (groupOf c (filtered devices q)); [now elim Hc | discriminate].
  - intros d Hd. eexists. split.
    + apply list_elem_of_In, list_elem_of_fmap. eexists. split; [reflexivity |].
      apply (sortedCategories_categories _ _ _ (category d) Hg). now exists d.
    + reflexivity.
Qed.

(** The theorem of X12 on a dataset with two categories, given out of
    order. *)
Lemma X12_sections_sorted_and_filled_witness :
  Forall (fun d => inherited (category d) = false) (filtered mixedDevices "")
  /\ exists sections,
       Command mixedDevices "https://neuraldsp.com/device-list" "" = Some sections
       /\ StronglySorted codeUnitLt (map sectionTitle sections).
Proof.
  assert (H : Forall (fun d => inherited (category d) = false)
                     (filtered mixedDevices "")) by (repeat constructor).
  split; [exact H |].
  destruct (X12_sections_sorted_and_filled mixedDevices
              "https://neuraldsp.com/device-list" "" H) as (sections & Hc & Hs & _).
  exists sections. split; [exact Hc | exact Hs].
Defined.

(** X13. Whenever the view renders, every matching record is shown exactly
    once, under its own category: the items of all sections together are,
    up to order, the renderings of the matching records. *)
Theorem X13_every_match_rendered_once
    (devices : list Device) (url q : string) (sections : list ListSection) :
  Command devices url q = Some sections ->
  Permutation (flat_map items sections)
              (map (fun d => renderItem url (category d) d) (filtered devices q))
  /\ length (flat_map items sections) = length (filtered devices q).
Proof.
  intros Hcmd.
  destruct (groupedDevices devices q) as [g |] eqn:Hg;
    [| unfold Command in Hcmd; rewrite Hg in Hcmd; discriminate Hcmd].
  rewrite (Command_sections _ url _ _ Hg) in Hcmd. injection Hcmd as <-.
  assert (Hperm : Permutation
            (flat_map items
               ((fun c => {| sectionTitle := c;
                             items := map (renderItem url c)
                                          (groupOf c (filtered devices q)) |})
                  <$> sortedCategories g))
            (map (fun d => renderItem url (category d) d) (filtered devices q))).
  { replace (flat_map items _)
      with (flat_map (fun c => map (renderItem url c) (groupOf c (filtered devices q)))
                     (sortedCategories g)).
    - rewrite flat_map_map_items. apply Permutation_map.
      apply groupOf_partition; [apply sortedCategories_NoDup |].
      intros d Hd. apply list_elem_of_In.
      apply (sortedCategories_categories _ _ _ (category d) Hg). now exists d.
    - induction (sortedCategories g) as [| c cs IH]; [reflexivity |].
      cbn. now rewrite IH. }
  split; [exact Hperm |].
  rewrite (Permutation_length Hperm). apply length_map.
Qed.

(** The theorem of X13 on the dataset with two categories: four records,
    four items. *)
Lemma X13_every_match_rendered_once_witness :
  exists sections,
    Command mixedDevices "https://neuraldsp.com/device-list" "" = Some sections
    /\ length (flat_map items sections) = 4.
Proof.
  eexists. split; [reflexivity |].
  exact (proj2 (X13_every_match_rendered_once mixedDevices
                  "https://neuraldsp.com/device-list" "" _ eq_refl)).
Defined.

(** X14. The view fails to render exactly when a matching record has a
    category named like a property of [Object.prototype]; the excluded
    records and the records the query filters out cannot make it fail, and
    once the groups are built the rendering itself never fails. *)
Theorem X14_rendering_throws_exactly_on_inherited_names
    (devices : list Device) (url q : string) :
  (Command devices url q = None
   <-> exists d, In d devices /\ category d <> announced
                 /\ matchesSearch q d = true /\ inherited (category d) = true)
  /\ (forall g, groupedDevices devices q = Some g -> is_Some (Command devices url q)).
Proof.
  assert (Hrender : forall g, groupedDevices devices q = Some g ->
                              is_Some (Command devices url q)).
  { intros g Hg. rewrite (Command_sections _ url _ _ Hg). now eexists. }
  split; [| exact Hrender].
  split.
  - intros Hnone.
    destruct (groupedDevices devices q) as [g |] eqn:Hg.
    + destruct (Hrender g eq_refl) as [sections Hs]. congruence.
    + apply groupedDevices_None, List.Exists_exists in Hg as (d & Hd & Hi).
      apply filtered_In in Hd as [Hd Hm]. apply releasedDevices_In in Hd as [Hd Hc].
      now exists d.
  - intros (d & Hd & Hc & Hm & Hi).
    assert (Hg : groupedDevices devices q = None).
    { apply groupedDevices_None, List.Exists_exists. exists d. split; [| exact Hi].
      apply filtered_In. split; [now apply releasedDevices_In | exact Hm]. }
    unfold Command. now rewrite Hg.
Qed.

End RenderingExtras.

Section PipelineExtras.
Import SearchView.

(** X15. For a record that the scraper extracted, read back by the view:
    the subtitle is its basedOn, the copy action is offered exactly when its
    basedOn is not the empty string (a blank basedOn cannot occur, since the
    scraper trims it), and it always has a title and a category to be
    listed under. *)
Theorem X15_extracted_records_in_the_view
    (document : Dom.Document) (url c : string) (d : Extractor.Device) :
  In d (Extractor.extractDevices document) ->
  title (renderItem url c (ofExtracted d)) <> ""
  /\ category (ofExtracted d) <> ""
  /\ subtitle (renderItem url c (ofExtracted d)) = Extractor.basedOn d
  /\ copyAction (ofExtracted d)
     = (if String.eqb (Extractor.basedOn d) "" then []
        else [CopyToClipboard (Extractor.basedOn d) "Copy 'Based On' to Clipboard"]).
Proof.
  intros H.
  apply extractDevices_In in H as (h & box & r & _ & Ht & _ & _ & Hwf & ->).
  cbn [ofExtracted renderItem title subtitle category Extractor.name
       Extractor.category Extractor.basedOn].
  split; [now apply wellFormedRow_name | split; [exact Ht | split]].
  - unfold subtitleOf. cbn. apply truthy_or_else_empty.
  - unfold copyAction, ofExtracted. cbn [basedOn Extractor.basedOn].
    rewrite trim_idempotent.
    destruct (JS.trim (Extractor.cellText 1 r)); reflexivity.
Qed.

(** The theorem of X15 at the record "Twin" of [samplePage], whose second
    cell is empty: no copy action. *)
Lemma X15_extracted_records_in_the_view_witness :
  In {| Extractor.category := "Guitar amps"; Extractor.name := "Twin";
        Extractor.basedOn := "" |}
     (Extractor.extractDevices Extractor.samplePage)
  /\ copyAction (ofExtracted {| Extractor.category := "Guitar amps";
                                Extractor.name := "Twin";
                                Extractor.basedOn := "" |}) = [].
Proof.
  assert (Hin : In {| Extractor.category := "Guitar amps"; Extractor.name := "Twin";
                      Extractor.basedOn := "" |}
                   (Extractor.extractDevices Extractor.samplePage))
    by (now right; left).
  split; [exact Hin |].
  exact (proj2 (proj2 (proj2
           (X15_extracted_records_in_the_view Extractor.samplePage "" "" _ Hin)))).
Defined.

End PipelineExtras.

(** * The summary by category *)

Section SummaryExtras.
Import Extractor Scraper.

Lemma totalCount_bump (key : string) (acc : Counts) :
  totalCount (bump key acc) = S (totalCount acc).
Proof.
  induction acc as [| [k n] r IH]; [reflexivity |].
  cbn [bump]. unfold totalCount in *.
  destruct (String.eqb k key); cbn [fold_right snd] in *; lia.
Qed.

Lemma countIn_bump (key k : string) (acc : Counts) :
  countIn k (bump key acc)
  = if String.eqb key k then S (countIn k acc) else countIn k acc.
Proof.
  induction acc as [| [k0 n] r IH].
  - cbn. destruct (String.eqb key k); reflexivity.
  - cbn [bump].
    destruct (String.eqb_spec k0 key) as [-> | Hne]; cbn [countIn].
    + destruct (String.eqb key k); [lia | reflexivity].
    + destruct (String.eqb_spec k0 k) as [-> | Hk].
      * destruct (String.eqb_spec key k); [congruence | reflexivity].
      * exact IH.
Qed.

Lemma bump_keys (key : string) (acc : Counts) :
  map fst (bump key acc)
  = if existsb (String.eqb key) (map fst acc) then map fst acc
    else map fst acc ++ [key].
Proof.
  induction acc as [| [k n] r IH]; [reflexivity |].
  cbn [bump map fst existsb].
  rewrite (String.eqb_sym key k).
  destruct (String.eqb k key); [reflexivity |].
  cbn [map fst orb]. rewrite IH.
  destruct (existsb (String.eqb key) (map fst r)); reflexivity.
Qed.

Lemma bump_NoDup (key : string) (acc : Counts) :
  NoDup (map fst acc) -> NoDup (map fst (bump key acc)).
Proof.
  intros H. rewrite bump_keys.
  destruct (existsb (String.eqb key) (map fst acc)) eqn:E; [exact H |].
  apply NoDup_app. split; [exact H | split; [| apply NoDup_singleton]].
  intros k Hk [= ->]%list_elem_of_singleton.
  apply not_true_iff_false in E. apply E, existsb_exists.
  exists key. split; [now apply list_elem_of_In | apply String.eqb_refl].
Qed.

Lemma bump_positive (key : string) (acc : Counts) :
  Forall (fun entry => 1 <= snd entry) acc ->
  Forall (fun entry => 1 <= snd entry) (bump key acc).
Proof.
  induction 1 as [| [k n] r Hn Hr IH]; cbn [bump].
  - repeat constructor.
  - cbn [snd] in Hn.
    destruct (String.eqb k key); constructor; cbn [snd]; try assumption; lia.
Qed.

(** With distinct keys and positive counts, the entries are what [countIn]
    reads. *)
Lemma countIn_In (k : string) (n : nat) (acc : Counts) :
  NoDup (map fst acc) ->
  Forall (fun entry => 1 <= snd entry) acc ->
  In (k, n) acc <-> countIn k acc = n /\ 1 <= n.
Proof.
  induction acc as [| [k0 n0] r IH]; intros Hnd Hpos.
  - cbn. split; [intros [] | lia].
  - cbn [map fst] in Hnd. apply NoDup_cons in Hnd as [Hk0 Hnd].
    apply Forall_cons in Hpos as [Hn0 Hpos]. cbn in Hn0.
    specialize (IH Hnd Hpos). cbn [In countIn].
    destruct (String.eqb_spec k0 k) as [-> | Hne].
    + split.
      * intros [[= ->] | Hin]; [now split |].
        exfalso. apply Hk0, list_elem_of_In, in_map_iff. now exists (k, n).
      * intros [-> _]. now left.
    + rewrite <- IH. split; [intros [[= -> _] | H]; [congruence | exact H] | now right].
Qed.

(** What the reduction keeps: distinct keys, positive counts, one more under
    its category for every record but those of [__proto__]. *)
Lemma reduce_countStep (l : list Device) :
  forall acc counts : Counts,
    SearchView.reduce countStep l acc = Some counts ->
    NoDup (map fst acc) ->
    Forall (fun entry => 1 <= snd entry) acc ->
    NoDup (map fst counts)
    /\ Forall (fun entry => 1 <= snd entry) counts
    /\ totalCount counts = totalCount acc + length (countedDevices l)
    /\ forall k, countIn k counts
                 = countIn k acc
                   + (if String.eqb k "__proto__" then 0 else recordsOf k l).
Proof.
  induction l as [| d l IH]; intros acc counts H Hnd Hpos.
  - injection H as <-. cbn. repeat split; try assumption; try lia.
    intros k. destruct (String.eqb k "__proto__"); lia.
  - cbn [SearchView.reduce] in H. unfold countStep in H.
    unfold countedDevices, recordsOf in *. cbn [List.filter].
    destruct (String.eqb_spec (category d) "__proto__") as [Hp | Hp].
    + destruct (IH _ _ H Hnd Hpos) as (H1 & H2 & H3 & H4).
      repeat split; try assumption. intros k. rewrite H4.
      destruct (String.eqb_spec k "__proto__") as [-> | Hk]; [reflexivity |].
      destruct (String.eqb_spec (category d) k); [congruence | reflexivity].
    + destruct (SearchView.inherited (category d)); [discriminate H |].
      destruct (IH _ _ H (bump_NoDup _ _ Hnd) (bump_positive _ _ Hpos))
        as (H1 & H2 & H3 & H4).
      repeat split; try assumption.
      * rewrite H3, totalCount_bump. cbn [negb length]. lia.
      * intros k. rewrite H4, countIn_bump.
        destruct (String.eqb_spec (category d) k) as [<- | Hk].
        -- destruct (String.eqb_spec (category d) "__proto__"); [congruence |].
           cbn [length]. lia.
        -- reflexivity.
Qed.

Lemma omap_withIndex (counts : Counts) :
  map snd (omap withIndex counts) = List.filter hasIndex counts.
Proof.
  induction counts as [| e r IH]; [reflexivity |].
  change (omap withIndex (e :: r))
    with (match withIndex e with
          | Some y => y :: omap withIndex r
          | None => omap withIndex r
          end).
  cbn [List.filter]. unfold withIndex at 1, hasIndex at 1.
  destruct (arrayIndex (fst e)); cbn [map snd]; now rewrite IH.
Qed.

Lemma filter_split_Permutation {A : Type} (p : A -> bool) (l : list A) :
  Permutation (List.filter p l ++ List.filter (fun x => negb (p x)) l) l.
Proof.
  induction l as [| x l IH]; [constructor |].
  cbn [List.filter]. destruct (p x); cbn [negb app].
  - now constructor.
  - rewrite <- Permutation_middle. now constructor.
Qed.

(** [Object.entries] lists every own property once. *)
Lemma entries_Permutation (counts : Counts) : Permutation (entries counts) counts.
Proof.
  unfold entries.
  rewrite <- (filter_split_Permutation hasIndex counts) at 3.
  apply Permutation_app; [| reflexivity].
  rewrite <- omap_withIndex. apply Permutation_map, merge_sort_Permutation.
Qed.

Lemma insertByCount_Permutation (e : string * nat) (l : list (string * nat)) :
  Permutation (insertByCount e l) (e :: l).
Proof.
  induction l as [| x r IH]; [reflexivity |].
  cbn [insertByCount]. destruct (Nat.ltb (snd e) (snd x)); [| reflexivity].
  rewrite IH. apply perm_swap.
Qed.

Lemma sortByCount_Permutation (l : list (string * nat)) :
  Permutation (sortByCount l) l.
Proof.
  induction l as [| e r IH]; [reflexivity |].
  cbn. rewrite insertByCount_Permutation. now constructor.
Qed.

Lemma insertByCount_sorted (e : string * nat) (l : list (string * nat)) :
  StronglySorted countGe l -> StronglySorted countGe (insertByCount e l).
Proof.
  induction 1 as [| x r Hr IH Hx]; cbn [insertByCount].
  - repeat constructor.
  - destruct (Nat.ltb_spec (snd e) (snd x)) as [Hlt | Hge].
    + constructor; [exact IH |].
      rewrite insertByCount_Permutation. constructor; [| exact Hx].
      unfold countGe. lia.
    + constructor; [now constructor |].
      constructor; [exact Hge |].
      eapply Forall_impl; [exact Hx |]. unfold countGe. intros y Hy. lia.
Qed.

Lemma sortByCount_sorted (l : list (string * nat)) :
  StronglySorted countGe (sortByCount l).
Proof.
  induction l as [| e r IH]; [constructor |].
  cbn. now apply insertByCount_sorted.
Qed.

(** The sort is stable: entries with the same count keep their order. *)
Lemma insertByCount_stable (n : nat) (e : string * nat) (l : list (string * nat)) :
  List.filter (sameCount n) (insertByCount e l) = List.filter (sameCount n) (e :: l).
Proof.
  induction l as [| x r IH]; [reflexivity |].
  cbn [insertByCount].
  destruct (Nat.ltb_spec (snd e) (snd x)) as [Hlt | Hge]; [| reflexivity].
  cbn [List.filter] in *. rewrite IH. unfold sameCount.
  destruct (Nat.eqb_spec (snd x) n), (Nat.eqb_spec (snd e) n); try reflexivity; lia.
Qed.

Lemma sortByCount_stable (n : nat) (l : list (string * nat)) :
  List.filter (sameCount n) (sortByCount l) = List.filter (sameCount n) l.
Proof.
  induction l as [| e r IH]; [reflexivity |].
  cbn [sortByCount fold_right]. rewrite insertByCount_stable.
  cbn [List.filter]. fold (sortByCount r). now rewrite IH.
Qed.

Lemma totalCount_Permutation (l l' : list (string * nat)) :
  Permutation l l' -> totalCount l = totalCount l'.
Proof. unfold totalCount. induction 1; cbn [fold_right] in *; lia. Qed.

Lemma summaryLines_counts (devices : list Device) (lines : list (string * nat)) :
  summaryLines devices = Some lines ->
  exists counts,
    categoryCounts devices = Some counts
    /\ lines = sortByCount (entries counts)
    /\ Permutation lines counts.
Proof.
  unfold summaryLines. destruct (categoryCounts devices) as [counts |]; [| discriminate].
  intros [= <-]. exists counts. split; [reflexivity | split; [reflexivity |]].
  now rewrite sortByCount_Permutation, entries_Permutation.
Qed.

(** The summary is determined unless a category is a name inherited from
    [Object.prototype] other than [__proto__]. *)
Lemma summaryLines_is_Some (devices : list Device) :
  is_Some (summaryLines devices)
  <-> Forall (fun d => category d = "__proto__"
                       \/ SearchView.inherited (category d) = false) devices.
Proof.
  unfold summaryLines, categoryCounts.
  generalize (@nil (string * nat)).
  induction devices as [| d l IH]; intros acc.
  - cbn. split; [constructor | now eexists].
  - cbn [SearchView.reduce]. unfold countStep. rewrite Forall_cons.
    destruct (String.eqb_spec (category d) "__proto__") as [Hp | Hp].
    + rewrite IH. tauto.
    + destruct (SearchView.inherited (category d)).
      * split; [intros [x Hx]; discriminate Hx | intros [[H | H] _]; congruence].
      * rewrite IH. tauto.
Qed.

(** X16. In the summary every category of the extracted records has one
    line, and the count on it is the number of records of that category; the
    counts add up to the number of records. The records of a category named
    [__proto__] are the exception: they are counted nowhere. *)
Theorem X16_summary_counts_every_category
    (devices : list Device) (lines : list (string * nat)) :
  summaryLines devices = Some lines ->
  NoDup (map fst lines)
  /\ (forall k n, In (k, n) lines
                  <-> k <> "__proto__" /\ n = recordsOf k devices /\ 1 <= n)
  /\ totalCount lines = length (countedDevices devices).
Proof.
  intros H. apply summaryLines_counts in H as (counts & Hc & _ & Hperm).
  destruct (reduce_countStep devices [] counts Hc) as (Hnd & Hpos & Htotal & Hcount);
    [constructor | constructor |].
  split; [| split].
  - now rewrite Hperm.
  - intros k n. rewrite Hperm, (countIn_In k n counts Hnd Hpos), Hcount. cbn.
    destruct (String.eqb_spec k "__proto__") as [-> | Hk]; split.
    + lia.
    + intros [Hp _]. now elim Hp.
    + intros [<- Hn]. auto.
    + intros (_ & -> & Hn). auto.
  - now rewrite (totalCount_Permutation _ _ Hperm), Htotal.
Qed.

(** The theorem of X16 on five records of four categories. *)
Lemma X16_summary_counts_every_category_witness :
  summaryLines yearlyDevices = Some [("Cabs", 2); ("2024", 1); ("Amps", 1)]
  /\ length yearlyDevices = 5
  /\ totalCount [("Cabs", 2); ("2024", 1); ("Amps", 1)] = length (countedDevices yearlyDevices).
Proof.
  assert (H : summaryLines yearlyDevices = Some [("Cabs", 2); ("2024", 1); ("Amps", 1)])
    by reflexivity.
  split; [exact H | split; [reflexivity |]].
  exact (proj2 (proj2 (X16_summary_counts_every_category yearlyDevices _ H))).
Defined.

Lemma indexLe_total : Total indexLe.
Proof. intros a b. unfold indexLe. lia. Qed.

Lemma indexLe_trans : Transitive indexLe.
Proof. intros a b c. unfold indexLe. lia. Qed.

Lemma withIndex_elem (counts : Counts) (p : N * (string * nat)) :
  p ∈ omap withIndex counts -> arrayIndex (fst (snd p)) = Some (fst p).
Proof.
  intros (e & _ & H)%list_elem_of_omap. unfold withIndex in H.
  destruct (arrayIndex (fst e)) eqn:E; [| discriminate H].
  injection H as <-. exact E.
Qed.

Lemma indexed_sorted (l : list (N * (string * nat))) :
  StronglySorted indexLe l ->
  Forall (fun p => arrayIndex (fst (snd p)) = Some (fst p)) l ->
  StronglySorted indexBefore (map snd l).
Proof.
  induction 1 as [| p l Hl IH Hp]; intros Hall; [constructor |].
  apply Forall_cons in Hall as [Hhead Hall].
  cbn [map]. constructor; [now apply IH |].
  apply Forall_map, Forall_forall. intros x Hx.
  rewrite Forall_forall in Hp, Hall.
  unfold indexBefore. rewrite Hhead, (Hall x Hx). exact (Hp x Hx).
Qed.

(** X17. The lines of the summary descend by count. Lines with the same
    count stand in the order of [Object.entries]: first the categories that
    are array indices, in ascending numeric order, then the other
    categories in the order they were first met. *)
Theorem X17_summary_descends_by_count
    (devices : list Device) (lines : list (string * nat)) :
  summaryLines devices = Some lines ->
  StronglySorted countGe lines
  /\ exists (counts : Counts) (indexed : list (string * nat)),
       categoryCounts devices = Some counts
       /\ Permutation indexed (List.filter hasIndex counts)
       /\ StronglySorted indexBefore indexed
       /\ forall n,
            List.filter (sameCount n) lines
            = List.filter (sameCount n)
                (indexed ++ List.filter (fun entry => negb (hasIndex entry)) counts).
Proof.
  intros H. apply summaryLines_counts in H as (counts & Hc & -> & _).
  split; [apply sortByCount_sorted |].
  exists counts, (map snd (merge_sort indexLe (omap withIndex counts))).
  pose proof indexLe_total. pose proof indexLe_trans.
  split; [exact Hc | split; [| split]].
  - rewrite <- omap_withIndex. apply Permutation_map, merge_sort_Permutation.
  - apply indexed_sorted.
    + now apply StronglySorted_merge_sort.
    + apply Forall_forall. intros p Hp.
      rewrite merge_sort_Permutation in Hp. now apply withIndex_elem in Hp.
  - intros n. apply sortByCount_stable.
Qed.

(** The theorem of X17 on five records of four categories: "Cabs" with two
    records leads, and of the two categories with one record the year comes
    before "Amps", which was met first. *)
Lemma X17_summary_descends_by_count_witness :
  summaryLines yearlyDevices = Some [("Cabs", 2); ("2024", 1); ("Amps", 1)]
  /\ categoryCounts yearlyDevices = Some [("Amps", 1); ("Cabs", 2); ("2024", 1)]
  /\ StronglySorted countGe [("Cabs", 2); ("2024", 1); ("Amps", 1)].
Proof.
  assert (H : summaryLines yearlyDevices = Some [("Cabs", 2); ("2024", 1); ("Amps", 1)])
    by reflexivity.
  split; [exact H | split; [reflexivity |]].
  exact (proj1 (X17_summary_descends_by_count yearlyDevices _ H)).
Defined.

End SummaryExtras.

(** * A page without usable headings *)

Section EmptyPageExtras.
Import Dom Extractor Scraper.

Lemma extractDevices_blank_headings (document : Document) :
  (forall h, In h (selectForest h2 document) -> JS.trim (textContent h) = "") ->
  extractDevices document = [].
Proof.
  intros Hblank.
  destruct (extractDevices document) as [| d l] eqn:E; [reflexivity |].
  assert (Hd : In d (extractDevices document)) by (rewrite E; now left).
  apply extractDevices_In in Hd as (h & _ & _ & Hh & Ht & _).
  exfalso. apply Ht, Hblank.
  rewrite <- locateForest_nodes. now apply in_map.
Qed.

(** X18. When the rendered page has no [h2] element, or only [h2] elements
    whose text is blank, the extractor returns no record; a run on which
    nothing throws then still ends with status 0 and replaces the dataset
    by the empty list. *)
Theorem X18_page_without_headings_empties_the_dataset
    (w : World) (document : Document) :
  evaluate w = Ok document ->
  runSucceeds w = true ->
  (forall h, In h (selectForest h2 document) -> JS.trim (textContent h) = "") ->
  extractDevices document = []
  /\ In (WriteFileSync (outputPath w) []) (trace w)
  /\ In (ConsoleLog (Scraped 0)) (trace w)
  /\ exitStatus (trace w) = 0.
Proof.
  intros Hev Hok Hblank.
  pose proof (extractDevices_blank_headings document Hblank) as Hnone.
  split; [exact Hnone |].
  destruct w as [l n g wfs ev c dir ex mk wr]. cbn in Hev. subst ev.
  destruct l as [[] | el], n as [[] | en], g as [[] | eg], c as [[] | ec],
           mk as [[] | emk], wr as [[] | ewr], ex, wfs as [[] | ewfs];
    try discriminate Hok;
    cbv [trace main scrapeDeviceList mbind mret M_bind M_ret emit await catch
         finally fst snd app negb launch newPage goto waitForSelector evaluate
         close existsSync mkdirSync writeFileSync outputPath libDir cwd];
    rewrite Hnone; cbn; auto 12.
Qed.

(** The theorem of X18 on a page whose only heading is a single space. *)
Lemma X18_page_without_headings_empties_the_dataset_witness :
  selectForest h2 blankPage = [heading " "]
  /\ extractDevices blankPage = []
  /\ exitStatus (trace (calmWorld blankPage)) = 0.
Proof.
  assert (Hblank : forall h, In h (selectForest h2 blankPage) ->
                             JS.trim (textContent h) = "").
  { intros h [<- | []]. reflexivity. }
  destruct (X18_page_without_headings_empties_the_dataset
              (calmWorld blankPage) blankPage eq_refl eq_refl Hblank)
    as (Hnone & _ & _ & Hexit).
  split; [reflexivity | split; [exact Hnone | exact Hexit]].
Defined.

End EmptyPageExtras.
